(** * StockFlow inventory management: product provisioning and low-stock alerts

    A shallow embedding of the two route modules of the repository
    ([routes/products.js] and [routes/alerts.js]) together with the part of
    the relational schema ([models/index.js], [database/schema.sql]) they
    read and write.

    Conventions of the embedding:
    - SQL [INT] columns, counts and JavaScript integers read from them are
      [Z]; a nullable column is an [option]; [VARCHAR]/[TEXT] columns are
      [string];
    - [DATE] values are day numbers ([Z]), so that [sale_date >= :thirtyDaysAgo]
      is a comparison of integers;
    - the database is MySQL, as the README of the repository requires: the
      result of [AVG] is a [DECIMAL] with four decimals, the arguments of
      [LIMIT] and [OFFSET] are unsigned integer literals;
    - the numbers the alert handlers compute are JavaScript numbers, that is
      IEEE 754 binary64 values, with the operations of [SpecFloat]; the
      conversions between strings and numbers that the runtime applies to
      the strings of a request ([Number], [parseInt], [String]) are taken as
      given;
    - the [DECIMAL] columns of a product and the numbers of a request body
      that Joi validates are exact rationals ([Qc], the canonical rationals,
      so that equal numbers are equal terms): the rounding of doubles is
      not represented there;
    - a table is the list of its rows, in storage order. *)

From Stdlib Require Import ZArith QArith Qcanon Qround Qabs Lqa SpecFloat.
From stdpp Require Import base decidable option list numbers strings sorting pretty.

Local Open Scope Z_scope.
(** ** The data model ([models/index.js]) *)

Record Company := mkCompany {
  c_id : Z;
  c_isActive : option bool }.

Record Warehouse := mkWarehouse {
  w_id : Z;
  w_companyId : Z;
  w_name : string;
  w_isActive : option bool }.

Record Supplier := mkSupplier {
  s_id : Z;
  s_name : string;
  s_contactEmail : option string;
  s_leadTimeDays : option Z;
  s_isActive : option bool }.

Record ProductCategory := mkProductCategory {
  pc_id : Z;
  pc_name : string;
  pc_lowStockThreshold : option Z }.

Record Product := mkProduct {
  p_id : Z;
  p_companyId : Z;
  p_categoryId : option Z;
  p_supplierId : option Z;
  p_name : string;
  p_sku : string;
  p_description : option string;
  p_price : Qc;
  p_cost : option Qc;
  p_weight : option Qc;
  p_dimensions : option string;
  p_lowStockThreshold : option Z;
  p_isActive : option bool }.

Record Inventory := mkInventory {
  i_id : Z;
  i_productId : Z;
  i_warehouseId : Z;
  i_quantity : Z;
  i_reservedQuantity : Z;
  i_lastUpdated : Z }.

Inductive MovementType := mv_in | mv_out | mv_adjustment | mv_transfer.

Record InventoryMovement := mkInventoryMovement {
  m_id : Z;
  m_inventoryId : Z;
  m_movementType : MovementType;
  m_quantity : Z;
  m_previousQuantity : Z;
  m_newQuantity : Z;
  m_referenceId : option string;
  m_referenceType : option string;
  m_notes : option string;
  m_userId : option Z }.

Record SalesData := mkSalesData {
  sd_productId : Z;
  sd_warehouseId : Z;
  sd_quantitySold : Z;
  sd_saleDate : Z }.

(** The committed contents of the database. *)
Record Store := mkStore {
  companies : list Company;
  warehouses : list Warehouse;
  suppliers : list Supplier;
  product_categories : list ProductCategory;
  products : list Product;
  inventory : list Inventory;
  inventory_movements : list InventoryMovement;
  sales_data : list SalesData }.

(** [req.user], as attached by the [auth] middleware. *)
Record User := mkUser {
  u_id : Z;
  u_companyId : Z }.

Global Instance Company_eq_dec : EqDecision Company.
Proof. solve_decision. Defined.
Global Instance Warehouse_eq_dec : EqDecision Warehouse.
Proof. solve_decision. Defined.
Global Instance Supplier_eq_dec : EqDecision Supplier.
Proof. solve_decision. Defined.
Global Instance ProductCategory_eq_dec : EqDecision ProductCategory.
Proof. solve_decision. Defined.
Global Instance Product_eq_dec : EqDecision Product.
Proof. solve_decision. Defined.
Global Instance Inventory_eq_dec : EqDecision Inventory.
Proof. solve_decision. Defined.
Global Instance MovementType_eq_dec : EqDecision MovementType.
Proof. solve_decision. Defined.
Global Instance InventoryMovement_eq_dec : EqDecision InventoryMovement.
Proof. solve_decision. Defined.
Global Instance SalesData_eq_dec : EqDecision SalesData.
Proof. solve_decision. Defined.
Global Instance Store_eq_dec : EqDecision Store.
Proof. solve_decision. Defined.

(** The primary keys and unique indexes of the schema that the alert
    queries rely on: [PRIMARY KEY] on every [id], and
    [UNIQUE KEY unique_product_warehouse (product_id, warehouse_id)]. *)
Record keys_unique (s : Store) : Prop := {
  ku_products : NoDup (p_id <$> products s);
  ku_warehouses : NoDup (w_id <$> warehouses s);
  ku_categories : NoDup (pc_id <$> product_categories s);
  ku_suppliers : NoDup (s_id <$> suppliers s);
  ku_inventory : NoDup ((λ i, (i_productId i, i_warehouseId i)) <$> inventory s) }.

Global Instance keys_unique_dec s : Decision (keys_unique s).
Proof.
  refine (cast_if (decide (NoDup (p_id <$> products s)
                   ∧ NoDup (w_id <$> warehouses s)
                   ∧ NoDup (pc_id <$> product_categories s)
                   ∧ NoDup (s_id <$> suppliers s)
                   ∧ NoDup ((λ i, (i_productId i, i_warehouseId i)) <$> inventory s))));
    [ destruct a as (?&?&?&?&?); by constructor
    | intros []; apply n; by repeat split ].
Defined.

(** ** SQL building blocks *)

(** [LEFT JOIN tbl ON on]: the matching rows, or one all-[NULL] row. *)
Definition left_join {B} (on : B → Prop) `{∀ b, Decision (on b)}
    (tbl : list B) : list (option B) :=
  match filter on tbl with
  | [] => [None]
  | l => Some <$> l
  end.

(** [SUM] over a non-empty integer column. *)
Definition SUM (l : list Z) : Z := foldr Z.add 0 l.

(** A [DECIMAL] value: [unscaled / 10 ^ scale], printed with [scale]
    decimals. *)
Record Decimal := mkDecimal {
  unscaled : Z;
  scale : Z }.

Global Instance Decimal_eq_dec : EqDecision Decimal.
Proof. solve_decision. Defined.

(** The quotient [a / b] of two integers, [b] positive, as a [DECIMAL] of
    the given scale: MySQL rounds exact-value numbers half away from
    zero. *)
Definition DECIMAL_div (a b scale : Z) : Decimal :=
  let n := Z.abs a * 10 ^ scale in
  {| unscaled := Z.sgn a * ((2 * n + b) / (2 * b)); scale := scale |}.

(** [div_precision_increment]: the decimals a division adds. *)
Definition div_precision_increment : Z := 4.

(** [AVG] over an integer column is [NULL] on no rows, else the mean as a
    [DECIMAL] with four decimals. *)
Definition AVG (l : list Z) : option Decimal :=
  match l with
  | [] => None
  | _ => Some (DECIMAL_div (SUM l) (Z.of_nat (length l)) div_precision_increment)
  end.

(** [COALESCE(a, b, 10)] of the threshold columns. *)
Definition COALESCE_threshold (a b : option Z) : Z :=
  match a with
  | Some t => t
  | None => match b with Some t => t | None => 10 end
  end.

(** The value of a string of decimal digits. *)
Definition digit (c : Ascii.ascii) : option N :=
  let n := Ascii.N_of_ascii c in
  if decide (48 ≤ n ≤ 57)%N then Some (n - 48)%N else None.

Fixpoint digits_value (acc : N) (text : string) : option N :=
  match text with
  | EmptyString => Some acc
  | String c rest =>
      match digit c with
      | Some d => digits_value (10 * acc + d) rest
      | None => None
      end
  end.

(** An unsigned integer literal, as [LIMIT] and [OFFSET] take: decimal
    digits, of a value below [2 ^ 64]. *)
Definition unsigned_literal (text : string) : option N :=
  match text with
  | EmptyString => None
  | _ =>
      match digits_value 0 text with
      | Some n => if decide (n < 2 ^ 64)%N then Some n else None
      | None => None
      end
  end.

(** [LIMIT :limit OFFSET :offset], with the texts written in place of the
    two parameters; the statement is rejected unless both are unsigned
    integer literals. *)
Definition LIMIT_OFFSET {A} (limit offset : string) (l : list A)
    : option (list A) :=
  match unsigned_literal limit, unsigned_literal offset with
  | Some limit, Some offset => Some (take (N.to_nat limit) (drop (N.to_nat offset) l))
  | _, _ => None
  end.

(** ** JavaScript numbers

    A number of JavaScript is an IEEE 754 binary64 value; the arithmetic is
    that of [SpecFloat], rounding to nearest, ties to even. *)

Module JS.

Definition Number : Type := spec_float.

Definition prec : Z := 53.
Definition emax : Z := 1024.

Global Instance Number_eq_dec : EqDecision Number.
Proof. solve_decision. Defined.

Definition NaN : Number := S754_nan.

(** The number nearest to an integer: the integer itself below [2 ^ 53]. *)
Definition of_Z (n : Z) : Number := binary_normalize prec emax n 0 false.


(** [x - y], [x * y], [x / y] and [x > y]. *)
Definition sub : Number → Number → Number := SFsub prec emax.
Definition mul : Number → Number → Number := SFmul prec emax.
Definition div : Number → Number → Number := SFdiv prec emax.
Definition gt (x y : Number) : bool := SFltb y x.

(** The number nearest to the rational [n / d]. *)
Definition of_ratio (n : Z) (d : positive) : Number :=
  match n with
  | Z0 => S754_zero false
  | Zpos m => SFdiv prec emax (S754_finite false m 0) (S754_finite false d 0)
  | Zneg m => SFdiv prec emax (S754_finite true m 0) (S754_finite false d 0)
  end.

(** [parseFloat(text)] for the text of a [DECIMAL] value, and for [NULL]. *)
Definition parseFloat (d : option Decimal) : Number :=
  match d with
  | Some d => of_ratio (unscaled d) (Z.to_pos (10 ^ scale d))
  | None => NaN
  end.

(** [x || 0]: [NaN] and the two zeros are falsy. *)
Definition or_zero (x : Number) : Number :=
  match x with
  | S754_nan | S754_zero _ => of_Z 0
  | _ => x
  end.

(** [Math.floor(x)] and [Math.ceil(x)]: a finite number is [±m * 2 ^ e]. *)
Definition Math_floor (x : Number) : Number :=
  match x with
  | S754_finite s m e =>
      if decide (0 ≤ e) then x
      else let z := Z.shiftr (cond_Zopp s (Zpos m)) (- e) in
           if decide (z = 0) then S754_zero s else of_Z z
  | _ => x
  end.

Definition Math_ceil (x : Number) : Number :=
  match x with
  | S754_finite s m e =>
      if decide (0 ≤ e) then x
      else let z := - Z.shiftr (- cond_Zopp s (Zpos m)) (- e) in
           if decide (z = 0) then S754_zero s else of_Z z
  | _ => x
  end.

(** [Math.max(0, x)]. *)
Definition Math_max_0 (x : Number) : Number :=
  match x with
  | S754_nan => NaN
  | _ => if gt x (of_Z 0) then x else of_Z 0
  end.

(** The text of [x.toFixed(2)]: a sign, the digits of an integer number of
    hundredths and the decimal point; for [NaN] and from [10 ^ 21] on it is
    the text of [String(x)]. *)
Inductive Fixed2 :=
| fixed2 (negative : bool) (hundredths : N)
| as_String (x : Number).

Global Instance Fixed2_eq_dec : EqDecision Fixed2.
Proof. solve_decision. Defined.

(** [toFixed] takes the integer [n] for which [n / 100 - x] is closest to
    zero, the larger one of two; [x] is the exact value of the number. *)
Definition toFixed2 (x : Number) : Fixed2 :=
  match x with
  | S754_zero _ => fixed2 false 0
  | S754_finite s m e =>
      let n := if decide (0 ≤ e) then Zpos m * 2 ^ e * 100
               else (200 * Zpos m + 2 ^ (- e)) / 2 ^ (1 - e) in
      if (if decide (0 ≤ e) then bool_decide (Zpos m * 2 ^ e < 10 ^ 21)
          else bool_decide (Zpos m < 10 ^ 21 * 2 ^ (- e)))
      then fixed2 s (Z.to_N n)
      else as_String x
  | _ => as_String x
  end.

(** The conversions between strings and numbers of the runtime:
    [Number(s)], which the arithmetic operators apply to a string operand,
    [parseInt(s)] and [String(x)]. *)
Record Runtime := mkRuntime {
  ToNumber : string → Number;
  parseInt : string → Number;
  ToString : Number → string }.

(** A value that is a string or a number. *)
Inductive Value :=
| VString (s : string)
| VNumber (x : Number).

Definition to_number (rt : Runtime) (v : Value) : Number :=
  match v with
  | VString s => ToNumber rt s
  | VNumber x => x
  end.

(** [parseInt(v)] converts its argument to a string first. *)
Definition parse_int (rt : Runtime) (v : Value) : Number :=
  match v with
  | VString s => parseInt rt s
  | VNumber x => parseInt rt (ToString rt x)
  end.

End JS.
(** ** The stock alert engine ([routes/alerts.js]) *)

Module Alerts.
Import JS.

(** [thirtyDaysAgo.setDate(thirtyDaysAgo.getDate() - 30)], as a date. *)
Definition thirtyDaysAgo (today : Z) : Z := today - 30.

(** The rows the three sales subqueries range over:
    [FROM sales_data sd WHERE sd.product_id = p.id AND sd.warehouse_id = w.id
     AND sd.sale_date >= :thirtyDaysAgo]. *)
Definition recent_sales (s : Store) (pid wid since : Z) : list SalesData :=
  filter (λ sd, sd_productId sd = pid ∧ sd_warehouseId sd = wid
                ∧ since ≤ sd_saleDate sd) (sales_data s).

(** [SELECT SUM(sd.quantity_sold) as total_sold ... GROUP BY sd.sale_date]. *)
Definition daily_sales (rows : list SalesData) : list Z :=
  (λ d, SUM (sd_quantitySold <$> filter (λ sd, sd_saleDate sd = d) rows))
    <$> remove_dups (sd_saleDate <$> rows).

(** [COALESCE((SELECT AVG(daily_sales.total_sold) FROM (...) daily_sales), 0)]. *)
Definition avg_daily_sales (s : Store) (pid wid since : Z) : Decimal :=
  default (mkDecimal 0 div_precision_increment)
    (AVG (daily_sales (recent_sales s pid wid since))).

(** [EXISTS(SELECT 1 FROM sales_data ...)]. *)
Definition EXISTS_recent_sales (s : Store) (pid wid since : Z) : Prop :=
  recent_sales s pid wid since ≠ [].

Global Instance EXISTS_recent_sales_dec s pid wid since :
  Decision (EXISTS_recent_sales s pid wid since).
Proof. unfold EXISTS_recent_sales. apply _. Defined.

(** One row of the join
    [products p INNER JOIN inventory i INNER JOIN warehouses w
     LEFT JOIN product_categories pc LEFT JOIN suppliers s]. *)
Definition Joined : Type :=
  Product * Inventory * Warehouse * option ProductCategory * option Supplier.

(** The joins shared by [countQuery] and [summaryQuery], which have no
    supplier join. *)
Definition from_joins (s : Store)
    : list (Product * Inventory * Warehouse * option ProductCategory) :=
  p ← products s;
  i ← filter (λ i, p_id p = i_productId i) (inventory s);
  w ← filter (λ w, i_warehouseId i = w_id w) (warehouses s);
  pc ← left_join (λ pc, p_categoryId p = Some (pc_id pc)) (product_categories s);
  [(p, i, w, pc)].

(** The joins of [lowStockQuery]. *)
Definition from_joins_suppliers (s : Store) : list Joined :=
  '(p, i, w, pc) ← from_joins s;
  sup ← left_join (λ sp, p_supplierId p = Some (s_id sp)) (suppliers s);
  [(p, i, w, pc, sup)].

(** The [WHERE] clause, identical in the three queries. *)
Definition where_clause (s : Store) (companyId since : Z)
    (j : Product * Inventory * Warehouse * option ProductCategory) : Prop :=
  let '(p, i, w, pc) := j in
  p_companyId p = companyId
  ∧ p_isActive p = Some true
  ∧ w_isActive w = Some true
  ∧ w_companyId w = companyId
  ∧ i_quantity i - i_reservedQuantity i
      ≤ COALESCE_threshold (p_lowStockThreshold p) (pc ≫= pc_lowStockThreshold)
  ∧ EXISTS_recent_sales s (p_id p) (w_id w) since.

Global Instance where_clause_dec s companyId since j :
  Decision (where_clause s companyId since j).
Proof. destruct j as [[[p i] w] pc]. unfold where_clause. apply _. Defined.

(** The result rows of [lowStockQuery]. *)
Record LowStockRow := mkLowStockRow {
  r_product_id : Z;
  r_product_name : string;
  r_sku : string;
  r_product_threshold : option Z;
  r_category_threshold : option Z;
  r_warehouse_id : Z;
  r_warehouse_name : string;
  r_quantity : Z;
  r_reserved_quantity : Z;
  r_current_stock : Z;
  r_threshold : Z;
  r_supplier_id : option Z;
  r_supplier_name : option string;
  r_supplier_contact_email : option string;
  r_supplier_lead_time : option Z;
  r_avg_daily_sales : Decimal;
  r_has_recent_sales : bool }.

Global Instance LowStockRow_eq_dec : EqDecision LowStockRow.
Proof. solve_decision. Defined.

(** The [SELECT] list of [lowStockQuery]. *)
Definition select_row (s : Store) (since : Z) (j : Joined) : LowStockRow :=
  let '(p, i, w, pc, sup) := j in
  {| r_product_id := p_id p;
     r_product_name := p_name p;
     r_sku := p_sku p;
     r_product_threshold := p_lowStockThreshold p;
     r_category_threshold := pc ≫= pc_lowStockThreshold;
     r_warehouse_id := w_id w;
     r_warehouse_name := w_name w;
     r_quantity := i_quantity i;
     r_reserved_quantity := i_reservedQuantity i;
     r_current_stock := i_quantity i - i_reservedQuantity i;
     r_threshold :=
       COALESCE_threshold (p_lowStockThreshold p) (pc ≫= pc_lowStockThreshold);
     r_supplier_id := s_id <$> sup;
     r_supplier_name := s_name <$> sup;
     r_supplier_contact_email := sup ≫= s_contactEmail;
     r_supplier_lead_time := sup ≫= s_leadTimeDays;
     r_avg_daily_sales := avg_daily_sales s (p_id p) (w_id w) since;
     r_has_recent_sales :=
       bool_decide (EXISTS_recent_sales s (p_id p) (w_id w) since) |}.

(** [SELECT DISTINCT ... FROM ... WHERE ...]: the qualifying candidates,
    before ordering and pagination. *)
Definition candidates (s : Store) (companyId since : Z) : list LowStockRow :=
  remove_dups
    (select_row s since
       <$> filter (λ j, where_clause s companyId since j.1) (from_joins_suppliers s)).

(** [ORDER BY (i.quantity - i.reserved_quantity) ASC]. *)
Definition by_stock (r1 r2 : LowStockRow) : Prop :=
  r_current_stock r1 ≤ r_current_stock r2.

Global Instance by_stock_dec : RelDecision by_stock.
Proof. intros r1 r2. unfold by_stock. apply _. Defined.

Definition ordered (s : Store) (companyId since : Z) : list LowStockRow :=
  merge_sort by_stock (candidates s companyId since).

(** [lowStockQuery], with the texts of [:limit] and [:offset]; [None]
    when the statement is rejected. *)
Definition lowStockQuery (s : Store) (companyId since : Z) (limit offset : string)
    : option (list LowStockRow) :=
  LIMIT_OFFSET limit offset (ordered s companyId since).

(** [SELECT COUNT(DISTINCT CONCAT(p.id, '-', w.id)) as total].  The
    concatenation of two decimal integers around a dash determines both of
    them, so the distinct strings are counted as distinct pairs. *)
Definition countQuery (s : Store) (companyId since : Z) : Z :=
  Z.of_nat (length (remove_dups
    ((λ j : Product * Inventory * Warehouse * option ProductCategory,
        (p_id j.1.1.1, w_id j.1.2))
       <$> filter (where_clause s companyId since) (from_joins s)))).

(** The supplier object of an alert. *)
Record SupplierInfo := mkSupplierInfo {
  si_id : Z;
  si_name : option string;
  si_contact_email : option string;
  si_lead_time_days : option Z }.

Record Alert := mkAlert {
  a_product_id : Z;
  a_product_name : string;
  a_sku : string;
  a_warehouse_id : Z;
  a_warehouse_name : string;
  a_current_stock : Z;
  a_threshold : Z;
  a_days_until_stockout : Number;
  a_supplier : option SupplierInfo }.

Global Instance SupplierInfo_eq_dec : EqDecision SupplierInfo.
Proof. solve_decision. Defined.
Global Instance Alert_eq_dec : EqDecision Alert.
Proof. solve_decision. Defined.

(** The stockout computation of the [results.map] callback;
    [avg_daily_sales] is the column of the row, a [DECIMAL] that the
    driver hands over as text. *)
Definition daysUntilStockout (avg_daily_sales : Decimal) (current_stock : Z)
    : Number :=
  let avgDailySales := or_zero (parseFloat (Some avg_daily_sales)) in
  let daysUntilStockout :=
    if gt avgDailySales (of_Z 0)
    then Math_floor (div (of_Z current_stock) avgDailySales)
    else if decide (0 < current_stock) then of_Z 90 else of_Z 0 in
  Math_max_0 daysUntilStockout.

(** [row.supplier_id ? {...} : null]; a supplier id of [0] is falsy too. *)
Definition supplier_of (row : LowStockRow) : option SupplierInfo :=
  match r_supplier_id row with
  | Some id =>
      if decide (id = 0) then None
      else Some {| si_id := id;
                   si_name := r_supplier_name row;
                   si_contact_email := r_supplier_contact_email row;
                   si_lead_time_days := r_supplier_lead_time row |}
  | None => None
  end.

Definition to_alert (row : LowStockRow) : Alert :=
  {| a_product_id := r_product_id row;
     a_product_name := r_product_name row;
     a_sku := r_sku row;
     a_warehouse_id := r_warehouse_id row;
     a_warehouse_name := r_warehouse_name row;
     a_current_stock := r_current_stock row;
     a_threshold := r_threshold row;
     a_days_until_stockout :=
       daysUntilStockout (r_avg_daily_sales row) (r_current_stock row);
     a_supplier := supplier_of row |}.

Record Pagination := mkPagination {
  current_page : Number;
  total_pages : Number;
  total_items : Z;
  pg_limit : Number }.

Global Instance Pagination_eq_dec : EqDecision Pagination.
Proof. solve_decision. Defined.

(** The responses of the two handlers: 403, 200 and the two 500 of the
    [catch] blocks. *)
Inductive Response :=
| Forbidden
| Ok (alerts : list Alert) (total_alerts : Z) (pagination : Pagination)
| DatabaseError
| InternalServerError.

Global Instance Response_eq_dec : EqDecision Response.
Proof. solve_decision. Defined.

(** The statements the handlers send to the database. *)
Inductive Statement := lowStock_statement | count_statement | summary_statement.

Global Instance Statement_eq_dec : EqDecision Statement.
Proof. solve_decision. Defined.

(** What [sequelize.query] rejects with, by [error.name]:
    ['SequelizeDatabaseError'] or any other name. *)
Inductive QueryError := database_error | other_error.

(** What the storage layer does to a statement apart from evaluating it:
    [None] lets it run, [Some e] rejects it with [e] (a lost connection, a
    timeout). *)
Definition Failures : Type := Statement → option QueryError.

Definition no_failures : Failures := λ _, None.

(** [await sequelize.query(...)]: a statement the database cannot parse is
    rejected with a 'SequelizeDatabaseError'. *)
Definition query {A} (failures : Failures) (q : Statement) (result : option A)
    : QueryError + A :=
  match failures q with
  | Some e => inl e
  | None =>
      match result with
      | Some rows => inr rows
      | None => inl database_error
      end
  end.

(** The [catch] block of the alert list. *)
Definition catch (error : QueryError) : Response :=
  match error with
  | database_error => DatabaseError
  | other_error => InternalServerError
  end.

(** [GET /api/companies/:company_id/alerts/low-stock].  [page] and [limit]
    are the strings of the query string, [None] when the caller omits
    them (a parameter given as an array or an object is converted to a
    string by the arithmetic and by [parseInt] alike); [today] is the date
    of the request.  Sequelize writes a number into the statement as
    [String] prints it. *)
Definition getLowStockAlerts (rt : Runtime) (failures : Failures) (user : User)
    (company_id : Z) (page limit : option string) (today : Z) (s : Store)
    : Response :=
  let page := from_option VString (VNumber (of_Z 1)) page in
  let limit := from_option VString (VNumber (of_Z 100)) limit in
  let offset := mul (sub (to_number rt page) (of_Z 1)) (to_number rt limit) in
  if decide (u_companyId user ≠ company_id) then Forbidden
  else
    let since := thirtyDaysAgo today in
    match query failures lowStock_statement
            (lowStockQuery s company_id since
               (ToString rt (parse_int rt limit))
               (ToString rt (parse_int rt (VNumber offset)))) with
    | inl error => catch error
    | inr results =>
        let alerts := to_alert <$> results in
        match query failures count_statement
                (Some (countQuery s company_id since)) with
        | inl error => catch error
        | inr totalAlerts =>
            Ok alerts totalAlerts
               {| current_page := parse_int rt page;
                  total_pages :=
                    Math_ceil (div (of_Z totalAlerts) (to_number rt limit));
                  total_items := totalAlerts;
                  pg_limit := parse_int rt limit |}
        end
    end.

(** [GET /api/companies/:company_id/alerts/low-stock/summary]. *)

(** The rows of [summaryQuery] before [parseInt]/[parseFloat]. *)
Record SummaryRow := mkSummaryRow {
  category_name : string;
  alert_count : Z;
  out_of_stock_count : Z;
  critical_count : Z;
  avg_stock_level : option Decimal }.

Definition joined_stock
    (j : Product * Inventory * Warehouse * option ProductCategory) : Z :=
  i_quantity j.1.1.2 - i_reservedQuantity j.1.1.2.

(** [GROUP BY pc.name]: the key is [NULL] for a product without category. *)
Definition group_key
    (j : Product * Inventory * Warehouse * option ProductCategory)
    : option string :=
  pc_name <$> j.2.

(** [SUM(CASE WHEN c THEN 1 ELSE 0 END)]. *)
Definition SUM_CASE {A} (c : A → Prop) `{∀ x, Decision (c x)} (g : list A) : Z :=
  SUM ((λ x, if decide (c x) then 1 else 0) <$> g).

(** The aggregates of one group. *)
Definition aggregate (k : option string)
    (g : list (Product * Inventory * Warehouse * option ProductCategory))
    : SummaryRow :=
  {| category_name := default "Uncategorized"%string k;
     alert_count := Z.of_nat (length g);
     out_of_stock_count := SUM_CASE (λ j, joined_stock j = 0) g;
     critical_count := SUM_CASE (λ j, joined_stock j ≤ 5) g;
     avg_stock_level := AVG (joined_stock <$> g) |}.

(** [ORDER BY alert_count DESC]. *)
Definition by_count_desc (r1 r2 : SummaryRow) : Prop :=
  alert_count r2 ≤ alert_count r1.

Global Instance by_count_desc_dec : RelDecision by_count_desc.
Proof. intros r1 r2. unfold by_count_desc. apply _. Defined.

Definition summaryQuery (s : Store) (companyId since : Z) : list SummaryRow :=
  let rows := filter (where_clause s companyId since) (from_joins s) in
  merge_sort by_count_desc
    ((λ k, aggregate k (filter (λ j, group_key j = k) rows))
       <$> remove_dups (group_key <$> rows)).

Record SummaryEntry := mkSummaryEntry {
  category : string;
  total_alerts : Z;
  out_of_stock : Z;
  critical_alerts : Z;
  average_stock_level : Fixed2 }.

(** [parseFloat(row.avg_stock_level).toFixed(2)]. *)
Definition to_entry (row : SummaryRow) : SummaryEntry :=
  {| category := category_name row;
     total_alerts := alert_count row;
     out_of_stock := out_of_stock_count row;
     critical_alerts := critical_count row;
     average_stock_level := toFixed2 (parseFloat (avg_stock_level row)) |}.

Inductive SummaryResponse :=
| SummaryForbidden
| SummaryOk (summary : list SummaryEntry)
| SummaryInternalServerError.

Global Instance SummaryEntry_eq_dec : EqDecision SummaryEntry.
Proof. solve_decision. Defined.
Global Instance SummaryResponse_eq_dec : EqDecision SummaryResponse.
Proof. solve_decision. Defined.

Definition getLowStockSummary (failures : Failures) (user : User)
    (company_id : Z) (today : Z) (s : Store) : SummaryResponse :=
  if decide (u_companyId user ≠ company_id) then SummaryForbidden
  else
    match query failures summary_statement
            (Some (summaryQuery s company_id (thirtyDaysAgo today))) with
    | inl _ => SummaryInternalServerError
    | inr summaryResults => SummaryOk (to_entry <$> summaryResults)
    end.

(** *** The vocabulary of the specification

    The definitions below follow the words of the specification, not the
    queries; the theorems relate the two. *)

(** The category and the supplier a product is linked to. *)
Definition linked_category (s : Store) (p : Product) : option ProductCategory :=
  head (filter (λ pc, p_categoryId p = Some (pc_id pc)) (product_categories s)).

Definition linked_supplier (s : Store) (p : Product) : option Supplier :=
  head (filter (λ sp, p_supplierId p = Some (s_id sp)) (suppliers s)).

(** The supplier's identity, name, contact email and lead time in days. *)
Definition supplier_info (sp : Supplier) : SupplierInfo :=
  {| si_id := s_id sp;
     si_name := Some (s_name sp);
     si_contact_email := s_contactEmail sp;
     si_lead_time_days := s_leadTimeDays sp |}.

(** An inventory record links a product and a warehouse. *)
Definition links (p : Product) (i : Inventory) (w : Warehouse) : Prop :=
  i_productId i = p_id p ∧ i_warehouseId i = w_id w.

Definition available_stock (i : Inventory) : Z :=
  i_quantity i - i_reservedQuantity i.

(** The product's own threshold when set, else the linked category's
    default when set, else 10. *)
Definition effective_threshold (s : Store) (p : Product) : Z :=
  match p_lowStockThreshold p with
  | Some t => t
  | None =>
      match linked_category s p with
      | Some pc =>
          match pc_lowStockThreshold pc with Some t => t | None => 10 end
      | None => 10
      end
  end.

(** A sale of the pair within the trailing 30 days, bound included. *)
Definition sold_recently (s : Store) (today : Z) (p : Product) (w : Warehouse)
    : Prop :=
  Exists (λ sd, sd_productId sd = p_id p ∧ sd_warehouseId sd = w_id w
                ∧ today - 30 ≤ sd_saleDate sd) (sales_data s).

Definition qualifies (s : Store) (companyId today : Z)
    (p : Product) (w : Warehouse) (i : Inventory) : Prop :=
  (p_companyId p = companyId ∧ w_companyId w = companyId)
  ∧ (p_isActive p = Some true ∧ w_isActive w = Some true)
  ∧ available_stock i ≤ effective_threshold s p
  ∧ sold_recently s today p w.

Global Instance qualifies_dec s companyId today p w i :
  Decision (qualifies s companyId today p w i).
Proof. unfold qualifies, sold_recently. apply _. Defined.

(** All qualifying (product, inventory, warehouse) triples of a company. *)
Definition qualifying (s : Store) (companyId today : Z)
    : list (Product * Inventory * Warehouse) :=
  filter (λ t, links t.1.1 t.1.2 t.2 ∧ qualifies s companyId today t.1.1 t.2 t.1.2)
    (p ← products s; i ← inventory s; w ← warehouses s; [(p, i, w)]).

(** A triple with the category its product is linked to. *)
Definition with_category (s : Store) (t : Product * Inventory * Warehouse)
    : Product * Inventory * Warehouse * option ProductCategory :=
  (t, linked_category s t.1.1).

(** The result row that stands for a triple. *)
Definition candidate_row (s : Store) (today : Z)
    (t : Product * Inventory * Warehouse) : LowStockRow :=
  select_row s (thirtyDaysAgo today)
    (t.1.1, t.1.2, t.2, linked_category s t.1.1, linked_supplier s t.1.1).

(** Sales of a pair in the trailing window, their total and the number of
    distinct dates among them. *)
Definition window_sales (s : Store) (today pid wid : Z) : list SalesData :=
  filter (λ sd, sd_productId sd = pid ∧ sd_warehouseId sd = wid
                ∧ today - 30 ≤ sd_saleDate sd) (sales_data s).

Definition units_sold (rows : list SalesData) : Z :=
  SUM (sd_quantitySold <$> rows).

Definition distinct_sale_dates (rows : list SalesData) : Z :=
  Z.of_nat (length (remove_dups (sd_saleDate <$> rows))).

(** The average daily sales of the specification, an exact quotient. *)
Definition avgDailySales (s : Store) (today pid wid : Z) : Q :=
  inject_Z (units_sold (window_sales s today pid wid))
  / inject_Z (distinct_sale_dates (window_sales s today pid wid)).

(** The same average as the handler reads it: the quotient rounded to
    four decimals by the database, then to the nearest number. *)
Definition avgDailySales_read (s : Store) (today pid wid : Z) : Number :=
  parseFloat
    (Some (DECIMAL_div (units_sold (window_sales s today pid wid))
             (distinct_sale_dates (window_sales s today pid wid)) 4)).

(** The texts the handler writes for [:limit] and [:offset]: the page
    size and the offset, as [parseInt] reads them and [String] prints them. *)
Definition limit_text (rt : Runtime) (limit : option string) : string :=
  ToString rt (parse_int rt (from_option VString (VNumber (of_Z 100)) limit)).

Definition offset_text (rt : Runtime) (page limit : option string) : string :=
  ToString rt
    (parse_int rt
       (VNumber
          (mul (sub (to_number rt (from_option VString (VNumber (of_Z 1)) page))
                  (of_Z 1))
             (to_number rt (from_option VString (VNumber (of_Z 100)) limit))))).

(** The category name a triple is reported under. *)
Definition category_of (s : Store) (t : Product * Inventory * Warehouse)
    : option string :=
  pc_name <$> linked_category s t.1.1.

Definition mean (l : list Z) : Q :=
  inject_Z (SUM l) / inject_Z (Z.of_nat (length l)).

(** The mean as the handler prints it: rounded to four decimals by the
    database, read as a number and printed with two decimals. *)
Definition mean_printed (l : list Z) : Fixed2 :=
  toFixed2 (parseFloat (Some (DECIMAL_div (SUM l) (Z.of_nat (length l)) 4))).

(** The rational a text of two decimals denotes. *)
Definition Fixed2_value (f : Fixed2) : option Q :=
  match f with
  | fixed2 negative n =>
      Some (if negative then - (Z.of_N n # 100) else Z.of_N n # 100)%Q
  | as_String _ => None
  end.

(** A rational rounded to two decimal places. *)
Definition rounded2 (x : Q) (y : Q) : Prop :=
  (∃ n : Z, (y == Qmake n 100)%Q) ∧ (Qabs (y - x) <= 1 # 200)%Q.

(** The rollup of one category, in the words of the specification, with
    the mean as the handler prints it. *)
Definition rollup (s : Store) (companyId today : Z) (k : option string)
    (e : SummaryEntry) : Prop :=
  let g := filter (λ t, category_of s t = k) (qualifying s companyId today) in
  category e = default "Uncategorized"%string k
  ∧ total_alerts e = Z.of_nat (length g)
  ∧ out_of_stock e
    = Z.of_nat (length (filter (λ t, available_stock t.1.2 = 0) g))
  ∧ critical_alerts e
    = Z.of_nat (length (filter (λ t, available_stock t.1.2 ≤ 5) g))
  ∧ average_stock_level e
    = mean_printed ((λ t, available_stock t.1.2) <$> g).

End Alerts.
(** ** The product provisioning service ([routes/products.js]) *)

Module Products.

(** *** Input validation ([createProductSchema])

    A field of the request body, as Joi classifies it under its default
    preferences ([convert: true]): absent, a value of the expected type
    (for a number field also a string Joi converts to a number), or any
    other value.  Lengths of strings are counted in characters of
    [string]. *)
Inductive StrInput := SUndefined | SString (v : string) | SOther.
Inductive NumInput := NUndefined | NNumber (v : Qc) | NOther.

(** [req.body]; [b_unknown] lists the keys that the schema does not have. *)
Record Body := mkBody {
  b_name : StrInput;
  b_sku : StrInput;
  b_description : StrInput;
  b_price : NumInput;
  b_cost : NumInput;
  b_weight : NumInput;
  b_dimensions : StrInput;
  b_categoryId : NumInput;
  b_supplierId : NumInput;
  b_lowStockThreshold : NumInput;
  b_warehouseId : NumInput;
  b_initialQuantity : NumInput;
  b_unknown : list string }.

(** The error codes of Joi that the schema can raise. *)
Inductive ErrorType :=
| any_required
| string_base | string_empty | string_min (limit : Z) | string_max (limit : Z)
| number_base | number_unsafe | number_integer | number_positive
| number_min (limit : Z) | number_precision (limit : Z)
| object_unknown.

(** One entry of [error.details]; its [message] is the text Joi prints for
    the code at the path. *)
Record Detail := mkDetail {
  d_path : string;
  d_type : ErrorType }.

Global Instance ErrorType_eq_dec : EqDecision ErrorType.
Proof. solve_decision. Defined.
Global Instance Detail_eq_dec : EqDecision Detail.
Proof. solve_decision. Defined.

Inductive Presence := optional | required.

Inductive StringRule := s_min (limit : Z) | s_max (limit : Z).

(** [Joi.string()] with its rules in the order they are written. *)
Record StringSchema := mkStringSchema {
  st_rules : list StringRule;
  st_allow_empty : bool;
  st_presence : Presence }.

Inductive NumberRule :=
| n_integer | n_positive | n_min (limit : Z) | n_precision (limit : Z).

(** [Joi.number()] with its rules in the order they are written. *)
Record NumberSchema := mkNumberSchema {
  nb_rules : list NumberRule;
  nb_presence : Presence;
  nb_default : option Qc }.

Definition string_rule (v : string) (r : StringRule) : list ErrorType :=
  match r with
  | s_min limit =>
      if decide (limit ≤ Z.of_nat (String.length v)) then [] else [string_min limit]
  | s_max limit =>
      if decide (Z.of_nat (String.length v) ≤ limit) then [] else [string_max limit]
  end.

(** The errors of a string field, all of them, and its value. *)
Definition validate_string (sc : StringSchema) (x : StrInput)
    : list ErrorType * option string :=
  match x with
  | SUndefined =>
      (match st_presence sc with required => [any_required] | optional => [] end,
       None)
  | SOther => ([string_base], None)
  | SString v =>
      if decide (v = ""%string)
      then (if st_allow_empty sc then [] else [string_empty], Some v)
      else (st_rules sc ≫= string_rule v, Some v)
  end.

Definition MAX_SAFE_INTEGER : Z := 9007199254740991.

(** [Math.round(value * precision) / precision]. *)
Definition round_to (limit : Z) (v : Qc) : Qc :=
  let precision := inject_Z (10 ^ limit) in
  Q2Qc (inject_Z (Qfloor (v * precision + (1 # 2))%Q) / precision).

Definition is_integer (v : Qc) : Prop := Q2Qc (inject_Z (Qfloor v)) = v.

Definition number_rule (v : Qc) (r : NumberRule) : list ErrorType :=
  match r with
  | n_integer => if decide (is_integer v) then [] else [number_integer]
  | n_positive => if decide (0 < v)%Qc then [] else [number_positive]
  | n_min limit =>
      if decide (Q2Qc (inject_Z limit) ≤ v)%Qc then [] else [number_min limit]
  | n_precision limit =>
      if decide (round_to limit v = v) then [] else [number_precision limit]
  end.

Definition precision_of (rules : list NumberRule) : option Z :=
  head (rules ≫= λ r, match r with n_precision limit => [limit] | _ => [] end).

(** The errors of a number field, all of them, and its value.  The value
    is first rounded to the precision of the schema; a number outside the
    safe integers is rejected before any rule is tried. *)
Definition validate_number (sc : NumberSchema) (x : NumInput)
    : list ErrorType * option Qc :=
  match x with
  | NUndefined =>
      (match nb_presence sc with required => [any_required] | optional => [] end,
       nb_default sc)
  | NOther => ([number_base], None)
  | NNumber value =>
      let v := match precision_of (nb_rules sc) with
               | Some limit => round_to limit value
               | None => value
               end in
      if decide (Q2Qc (inject_Z MAX_SAFE_INTEGER) < value
                 ∨ value < Q2Qc (inject_Z (- MAX_SAFE_INTEGER)))%Qc
      then ([number_unsafe], Some v)
      else (nb_rules sc ≫= number_rule v, Some v)
  end.

(** The validated and defaulted [value]. *)
Record Value := mkValue {
  v_name : string;
  v_sku : string;
  v_description : option string;
  v_price : Qc;
  v_cost : option Qc;
  v_weight : option Qc;
  v_dimensions : option string;
  v_categoryId : option Z;
  v_supplierId : option Z;
  v_lowStockThreshold : option Z;
  v_warehouseId : Z;
  v_initialQuantity : Z }.

Definition name_schema := mkStringSchema [s_min 1; s_max 255] false required.
Definition sku_schema := mkStringSchema [s_min 1; s_max 100] false required.
Definition description_schema := mkStringSchema [] true optional.
Definition price_schema := mkNumberSchema [n_positive; n_precision 2] required None.
Definition cost_schema := mkNumberSchema [n_positive; n_precision 2] optional None.
Definition weight_schema := mkNumberSchema [n_positive; n_precision 2] optional None.
Definition dimensions_schema := mkStringSchema [s_max 100] false optional.
Definition categoryId_schema := mkNumberSchema [n_integer; n_positive] optional None.
Definition supplierId_schema := mkNumberSchema [n_integer; n_positive] optional None.
Definition lowStockThreshold_schema :=
  mkNumberSchema [n_integer; n_min 0] optional (Some (Q2Qc 10)).
Definition warehouseId_schema := mkNumberSchema [n_integer; n_positive] required None.
Definition initialQuantity_schema := mkNumberSchema [n_integer; n_min 0] required None.

Definition at_path (path : string) (errors : list ErrorType) : list Detail :=
  mkDetail path <$> errors.

(** Every violation of the schema, in the order Joi meets them: the keys
    of the schema in the order they are declared, the rules of a key in
    the order they are written, then the unknown keys. *)
Definition violations (body : Body) : list Detail :=
  at_path "name" (validate_string name_schema (b_name body)).1
  ++ at_path "sku" (validate_string sku_schema (b_sku body)).1
  ++ at_path "description" (validate_string description_schema (b_description body)).1
  ++ at_path "price" (validate_number price_schema (b_price body)).1
  ++ at_path "cost" (validate_number cost_schema (b_cost body)).1
  ++ at_path "weight" (validate_number weight_schema (b_weight body)).1
  ++ at_path "dimensions" (validate_string dimensions_schema (b_dimensions body)).1
  ++ at_path "categoryId" (validate_number categoryId_schema (b_categoryId body)).1
  ++ at_path "supplierId" (validate_number supplierId_schema (b_supplierId body)).1
  ++ at_path "lowStockThreshold"
       (validate_number lowStockThreshold_schema (b_lowStockThreshold body)).1
  ++ at_path "warehouseId" (validate_number warehouseId_schema (b_warehouseId body)).1
  ++ at_path "initialQuantity"
       (validate_number initialQuantity_schema (b_initialQuantity body)).1
  ++ ((λ key, mkDetail key object_unknown) <$> b_unknown body).

Definition value_of (body : Body) : Value :=
  let num sc x := (validate_number sc x).2 in
  let str sc x := (validate_string sc x).2 in
  {| v_name := default ""%string (str name_schema (b_name body));
     v_sku := default ""%string (str sku_schema (b_sku body));
     v_description := str description_schema (b_description body);
     v_price := default 0%Qc (num price_schema (b_price body));
     v_cost := num cost_schema (b_cost body);
     v_weight := num weight_schema (b_weight body);
     v_dimensions := str dimensions_schema (b_dimensions body);
     v_categoryId := (λ v : Qc, Qfloor v) <$> num categoryId_schema (b_categoryId body);
     v_supplierId := (λ v : Qc, Qfloor v) <$> num supplierId_schema (b_supplierId body);
     v_lowStockThreshold :=
       (λ v : Qc, Qfloor v)
         <$> num lowStockThreshold_schema (b_lowStockThreshold body);
     v_warehouseId :=
       Qfloor (default 0%Qc (num warehouseId_schema (b_warehouseId body)));
     v_initialQuantity :=
       Qfloor (default 0%Qc (num initialQuantity_schema (b_initialQuantity body))) |}.

(** The preferences of [schema.validate]. *)
Record Preferences := mkPreferences { abortEarly : bool }.

(** Joi's defaults: validation stops at the first error. *)
Definition defaults : Preferences := {| abortEarly := true |}.

(** [createProductSchema.validate(body, prefs)]: [error.details] or [value]. *)
Definition validate (prefs : Preferences) (body : Body) : list Detail + Value :=
  match violations body with
  | [] => inr (value_of body)
  | first :: rest => inl (if abortEarly prefs then [first] else first :: rest)
  end.

(** *** The storage layer, as Sequelize presents it *)

(** The errors a query can reject with, by [error.name]. *)
Inductive DbError :=
| SequelizeUniqueConstraintError
| SequelizeForeignKeyConstraintError
| SequelizeDatabaseError.

(** The queries of the handler, in program order. *)
Inductive Query :=
| q_Warehouse_findOne | q_Product_findOne | q_Product_create
| q_Inventory_findOne | q_Inventory_create | q_InventoryMovement_create
| q_commit.

Global Instance Query_eq_dec : EqDecision Query.
Proof. solve_decision. Defined.

(** What the storage layer does to a query apart from the keys of the
    schema: [None] lets it run, [Some e] rejects it with [e] (a lost
    connection, a lock timeout, a value out of the range of its column, a
    conflict found at commit). *)
Definition Faults : Type := Query → option DbError.

Definition no_faults : Faults := λ _, None.

(** A computation inside the transaction: it reads and writes the
    transaction's view of the database, and may reject. *)
Definition Tx (A : Type) : Type := Store → DbError + A * Store.

Definition tx_ret {A} (a : A) : Tx A := λ s, inr (a, s).

Definition tx_bind {A B} (m : Tx A) (k : A → Tx B) : Tx B :=
  λ s, match m s with
       | inl e => inl e
       | inr (a, s') => k a s'
       end.

Definition tx_throw {A} (e : DbError) : Tx A := λ _, inl e.

Definition tx_gets {A} (f : Store → A) : Tx A := λ s, inr (f s, s).

Definition tx_modify (f : Store → Store) : Tx unit := λ s, inr (tt, f s).

Global Instance Tx_ret : MRet Tx := @tx_ret.
Global Instance Tx_bind : MBind Tx := λ A B k m, tx_bind m k.

(** [await]: the computation of a promise, run to its end. *)
Definition await {A} (m : Tx A) : Tx A := m.

(** A query runs unless the storage layer rejects it. *)
Definition query {A} (faults : Faults) (q : Query) (m : Tx A) : Tx A :=
  match faults q with
  | Some e => tx_throw e
  | None => m
  end.

(** [AUTO_INCREMENT]: an id above every id of the table. *)
Definition next_id (ids : list Z) : Z := 1 + foldr Z.max 0 ids.

(** [Warehouse.findOne({ where: { id, companyId, isActive: true } })]. *)
Definition Warehouse_findOne (id companyId : Z) : Tx (option Warehouse) :=
  tx_gets (λ s, head (filter (λ w, w_id w = id ∧ w_companyId w = companyId
                                   ∧ w_isActive w = Some true) (warehouses s))).

(** [Product.findOne({ where: { sku } })]. *)
Definition Product_findOne (sku : string) : Tx (option Product) :=
  tx_gets (λ s, head (filter (λ p, p_sku p = sku) (products s))).

(** [Inventory.findOne({ where: { productId, warehouseId } })]. *)
Definition Inventory_findOne (productId warehouseId : Z) : Tx (option Inventory) :=
  tx_gets (λ s, head (filter (λ i, i_productId i = productId
                                   ∧ i_warehouseId i = warehouseId) (inventory s))).

Definition references {A} (key : A → Z) (tbl : list A) (id : option Z) : Prop :=
  match id with
  | Some id => id ∈ key <$> tbl
  | None => True
  end.

Global Instance references_dec {A} (key : A → Z) tbl id :
  Decision (references key tbl id).
Proof. destruct id; simpl; apply _. Defined.

(** [Product.create({...})].  The table has [sku ... UNIQUE] and foreign
    keys to [companies], [product_categories] and [suppliers]; the unique
    index is met first.  The model gives [lowStockThreshold] the default
    10 and [id] the next value of the counter; its validators ([min: 0]
    on price and cost) hold of every validated value. *)
Definition Product_create (companyId : Z) (name sku : string)
    (description : option string) (price : Qc) (cost weight : option Qc)
    (dimensions : option string) (categoryId supplierId : option Z)
    (lowStockThreshold : option Z) (isActive : bool) : Tx Product :=
  λ s,
    if decide (sku ∈ p_sku <$> products s)
    then inl SequelizeUniqueConstraintError
    else if decide (companyId ∈ c_id <$> companies s
                    ∧ references pc_id (product_categories s) categoryId
                    ∧ references s_id (suppliers s) supplierId)
    then
      let product :=
        {| p_id := next_id (p_id <$> products s);
           p_companyId := companyId;
           p_categoryId := categoryId;
           p_supplierId := supplierId;
           p_name := name;
           p_sku := sku;
           p_description := description;
           p_price := price;
           p_cost := cost;
           p_weight := weight;
           p_dimensions := dimensions;
           p_lowStockThreshold := Some (default 10 lowStockThreshold);
           p_isActive := Some isActive |} in
      inr (product,
           mkStore (companies s) (warehouses s) (suppliers s)
             (product_categories s) (products s ++ [product]) (inventory s)
             (inventory_movements s) (sales_data s))
    else inl SequelizeForeignKeyConstraintError.

(** [Inventory.create({...})].  The table has the unique key
    [(product_id, warehouse_id)] and foreign keys to [products] and
    [warehouses]. *)
Definition Inventory_create (productId warehouseId quantity reservedQuantity
    lastUpdated : Z) : Tx Inventory :=
  λ s,
    if decide ((productId, warehouseId)
               ∈ (λ i, (i_productId i, i_warehouseId i)) <$> inventory s)
    then inl SequelizeUniqueConstraintError
    else if decide (productId ∈ p_id <$> products s
                    ∧ warehouseId ∈ w_id <$> warehouses s)
    then
      let record :=
        {| i_id := next_id (i_id <$> inventory s);
           i_productId := productId;
           i_warehouseId := warehouseId;
           i_quantity := quantity;
           i_reservedQuantity := reservedQuantity;
           i_lastUpdated := lastUpdated |} in
      inr (record,
           mkStore (companies s) (warehouses s) (suppliers s)
             (product_categories s) (products s) (inventory s ++ [record])
             (inventory_movements s) (sales_data s))
    else inl SequelizeForeignKeyConstraintError.

(** [InventoryMovement.create({...})], with a foreign key to [inventory]. *)
Definition InventoryMovement_create (inventoryId : Z)
    (movementType : MovementType) (quantity previousQuantity newQuantity : Z)
    (referenceType referenceId notes : string) (userId : Z)
    : Tx InventoryMovement :=
  λ s,
    if decide (inventoryId ∈ i_id <$> inventory s)
    then
      let movement :=
        {| m_id := next_id (m_id <$> inventory_movements s);
           m_inventoryId := inventoryId;
           m_movementType := movementType;
           m_quantity := quantity;
           m_previousQuantity := previousQuantity;
           m_newQuantity := newQuantity;
           m_referenceId := Some referenceId;
           m_referenceType := Some referenceType;
           m_notes := Some notes;
           m_userId := Some userId |} in
      inr (movement,
           mkStore (companies s) (warehouses s) (suppliers s)
             (product_categories s) (products s) (inventory s)
             (inventory_movements s ++ [movement]) (sales_data s))
    else inl SequelizeForeignKeyConstraintError.

(** *** The handler of [POST /api/products] *)

Inductive Response :=
| Created (id : Z) (name sku : string) (price : Qc)
    (warehouseId initialQuantity : Z)
| ValidationFailed (details : list Detail)
| InvalidWarehouse
| SkuAlreadyExists (sku : string)
| InventoryAlreadyExists
| DuplicateEntry
| InvalidReference
| InternalServerError.

Global Instance Response_eq_dec : EqDecision Response.
Proof. solve_decision. Defined.

(** [res.status(...)]. *)
Definition status (r : Response) : Z :=
  match r with
  | Created _ _ _ _ _ _ => 201
  | ValidationFailed _ | InvalidWarehouse | InvalidReference => 400
  | SkuAlreadyExists _ | InventoryAlreadyExists | DuplicateEntry => 409
  | InternalServerError => 500
  end.

(** The [catch] block, after its [transaction.rollback()]. *)
Definition catch (error : DbError) : Response :=
  match error with
  | SequelizeUniqueConstraintError => DuplicateEntry
  | SequelizeForeignKeyConstraintError => InvalidReference
  | SequelizeDatabaseError => InternalServerError
  end.

(** How a part of the [try] block ends: with [transaction.rollback()] and
    an early [return], or by running on. *)
Inductive Step (A : Type) :=
| RollbackAndReturn (r : Response)
| Continue (a : A).
Arguments RollbackAndReturn {A} r.
Arguments Continue {A} a.

(** The two lookups that precede the writes: the warehouse must be an
    active one of the caller's company, and the SKU must be free. *)
Definition checks (faults : Faults) (user : User) (value : Value) : Tx (Step unit) :=
  warehouse ← await (query faults q_Warehouse_findOne
    (Warehouse_findOne (v_warehouseId value) (u_companyId user)));
  match warehouse with
  | None => tx_ret (RollbackAndReturn InvalidWarehouse)
  | Some _ =>
      existingProduct ← await (query faults q_Product_findOne
        (Product_findOne (v_sku value)));
      match existingProduct with
      | Some _ => tx_ret (RollbackAndReturn (SkuAlreadyExists (v_sku value)))
      | None => tx_ret (Continue tt)
      end
  end.

(** The writes: the product, the guard against a second inventory record,
    the inventory record and its movement.  [now] is [new Date()]. *)
Definition writes (faults : Faults) (now : Z) (user : User) (value : Value)
    : Tx (Step Response) :=
  product ← await (query faults q_Product_create
    (Product_create (u_companyId user) (v_name value) (v_sku value)
       (v_description value) (v_price value) (v_cost value) (v_weight value)
       (v_dimensions value) (v_categoryId value) (v_supplierId value)
       (v_lowStockThreshold value) true));
  existingInventory ← await (query faults q_Inventory_findOne
    (Inventory_findOne (p_id product) (v_warehouseId value)));
  match existingInventory with
  | Some _ => tx_ret (RollbackAndReturn InventoryAlreadyExists)
  | None =>
      inventory ← await (query faults q_Inventory_create
        (Inventory_create (p_id product) (v_warehouseId value)
           (v_initialQuantity value) 0 now));
      _ ← await (query faults q_InventoryMovement_create
        (InventoryMovement_create (i_id inventory) mv_in
           (v_initialQuantity value) 0 (v_initialQuantity value)
           "initial_stock" (pretty (p_id product))
           "Initial stock entry for new product" (u_id user)));
      tx_ret (Continue
        (Created (p_id product) (p_name product) (p_sku product)
           (p_price product) (v_warehouseId value) (v_initialQuantity value)))
  end.

(** The handler, between [sequelize.transaction()] and its response.  The
    transaction works on its own view of the database; [commit] makes the
    view the database, [rollback] drops it.  [seen] is the database the
    lookups of [checks] read and [db] the one the writes meet: they are
    the same unless another transaction commits in between. *)
Definition createProduct_at (faults : Faults) (now : Z) (user : User)
    (body : Body) (seen db : Store) : Response * Store :=
  match validate defaults body with
  | inl details => (ValidationFailed details, db)
  | inr value =>
      match checks faults user value seen with
      | inl error => (catch error, db)
      | inr (RollbackAndReturn r, _) => (r, db)
      | inr (Continue _, _) =>
          match writes faults now user value db with
          | inl error => (catch error, db)
          | inr (RollbackAndReturn r, _) => (r, db)
          | inr (Continue r, transaction) =>
              match faults q_commit with
              | Some error => (catch error, db)
              | None => (r, transaction)
              end
          end
      end
  end.

(** A request served with no other transaction in between. *)
Definition createProduct (faults : Faults) (now : Z) (user : User)
    (body : Body) (db : Store) : Response * Store :=
  createProduct_at faults now user body db db.

(** Every inventory record is of a product of the table
    ([FOREIGN KEY (product_id) REFERENCES products(id)]). *)
Definition inventory_references_products (s : Store) : Prop :=
  Forall (λ i, i_productId i ∈ p_id <$> products s) (inventory s).

End Products.

(** ** Authentication ([middleware/auth.js]) *)

Module Auth.

(** The errors of [jwt.verify], by [error.name]. *)
Inductive JwtError := JsonWebTokenError | TokenExpiredError | NotBeforeError.

(** The payload of a verified token; it carries a company id. *)
Record Decoded := mkDecoded {
  d_userId : option Z;
  d_id : option Z;
  d_companyId : Z;
  d_email : option string;
  d_role : option string }.

(** [req.user]. *)
Record ReqUser := mkReqUser {
  ru_id : option Z;
  ru_companyId : Z;
  ru_email : option string;
  ru_role : string;
  ru_company : Company }.

(** The responses of the middleware. *)
Inductive Rejection :=
| NoAuthorizationHeader
| InvalidAuthorizationFormat
| NoTokenProvided
| CompanyNoLongerActive
| InvalidToken
| TokenExpired
| AuthenticationFailed
| AuthenticationRequired
| InsufficientPermissions.

(** [res.status(...)]. *)
Definition status (r : Rejection) : Z :=
  match r with
  | InsufficientPermissions => 403
  | _ => 401
  end.

(** A middleware answers, or hands the request on with [next()]. *)
Inductive Outcome (A : Type) :=
| Reject (r : Rejection)
| Next (a : A).
Arguments Reject {A} r.
Arguments Next {A} a.

(** [decoded.userId || decoded.id]: a user id of 0 is falsy. *)
Definition user_id_of (decoded : Decoded) : option Z :=
  match d_userId decoded with
  | Some n => if decide (n = 0) then d_id decoded else Some n
  | None => d_id decoded
  end.

(** [decoded.role || 'user']: an empty role is falsy. *)
Definition role_of (decoded : Decoded) : string :=
  match d_role decoded with
  | Some r => if decide (r = ""%string) then "user"%string else r
  | None => "user"%string
  end.

Definition req_user (decoded : Decoded) (company : Company) : ReqUser :=
  {| ru_id := user_id_of decoded;
     ru_companyId := d_companyId decoded;
     ru_email := d_email decoded;
     ru_role := role_of decoded;
     ru_company := company |}.

(** [Company.findOne({ where: { id, isActive: true } })]. *)
Definition Company_findOne (id : Z) (db : Store) : option Company :=
  head (filter (λ c, c_id c = id ∧ c_isActive c = Some true) (companies db)).

Section middleware.

(** [jwt.verify(token, secret)] of the [jsonwebtoken] package: the payload
    of the token, or the error it throws. *)
Variable verify : string → JwtError + Decoded.

(** Whether the storage layer rejects the company lookup. *)
Variable lookup_fails : bool.

(** [auth]: [authHeader] is [req.header('Authorization')]. *)
Definition auth (authHeader : option string) (db : Store) : Outcome ReqUser :=
  match authHeader with
  | None => Reject NoAuthorizationHeader
  | Some authHeader =>
      if decide (authHeader = ""%string) then Reject NoAuthorizationHeader
      else if negb (String.prefix "Bearer " authHeader)
      then Reject InvalidAuthorizationFormat
      else
        let token :=
          String.substring 7 (String.length authHeader - 7) authHeader in
        if decide (token = ""%string) then Reject NoTokenProvided
        else
          match verify token with
          | inl JsonWebTokenError => Reject InvalidToken
          | inl TokenExpiredError => Reject TokenExpired
          | inl NotBeforeError => Reject AuthenticationFailed
          | inr decoded =>
              if lookup_fails then Reject AuthenticationFailed
              else
                match Company_findOne (d_companyId decoded) db with
                | None => Reject CompanyNoLongerActive
                | Some company => Next (req_user decoded company)
                end
          end
  end.

(** [optionalAuth]: it always calls [next()]; the result is [req.user]. *)
Definition optionalAuth (authHeader : option string) (db : Store)
    : option ReqUser :=
  match authHeader with
  | None => None
  | Some authHeader =>
      if decide (authHeader = ""%string) then None
      else if negb (String.prefix "Bearer " authHeader) then None
      else
        let token :=
          String.substring 7 (String.length authHeader - 7) authHeader in
        if decide (token = ""%string) then None
        else
          match verify token with
          | inl _ => None
          | inr decoded =>
              if lookup_fails then None
              else
                match Company_findOne (d_companyId decoded) db with
                | Some company => Some (req_user decoded company)
                | None => None
                end
          end
  end.

End middleware.

(** [authorize(allowedRoles)]. *)
Definition authorize (allowedRoles : list string) (user : option ReqUser)
    : Outcome ReqUser :=
  match user with
  | None => Reject AuthenticationRequired
  | Some user =>
      if decide (ru_role user ∈ allowedRoles) then Next user
      else Reject InsufficientPermissions
  end.

(** The part of [req.user] the alert handlers read: the company id. *)
Definition to_user (user : ReqUser) : User :=
  {| u_id := default 0 (ru_id user); u_companyId := ru_companyId user |}.

End Auth.

(** ** The routes, as [router.get(path, auth, handler)] mounts them *)

Module Routes.

Section routes.
Variable verify : string → Auth.JwtError + Auth.Decoded.
Variable lookup_fails : bool.
Variable rt : JS.Runtime.
Variable failures : Alerts.Failures.

(** [GET /api/companies/:company_id/alerts/low-stock]. *)
Definition lowStockAlerts (authHeader : option string) (company_id : Z)
    (page limit : option string) (today : Z) (db : Store)
    : Auth.Rejection + Alerts.Response :=
  match Auth.auth verify lookup_fails authHeader db with
  | Auth.Reject r => inl r
  | Auth.Next user =>
      inr (Alerts.getLowStockAlerts rt failures (Auth.to_user user) company_id
             page limit today db)
  end.

(** [GET /api/companies/:company_id/alerts/low-stock/summary]. *)
Definition lowStockSummary (authHeader : option string) (company_id : Z)
    (today : Z) (db : Store) : Auth.Rejection + Alerts.SummaryResponse :=
  match Auth.auth verify lookup_fails authHeader db with
  | Auth.Reject r => inl r
  | Auth.Next user =>
      inr (Alerts.getLowStockSummary failures (Auth.to_user user) company_id
             today db)
  end.

End routes.

End Routes.

(** ** Integrity of the database

    The constraints of [database/schema.sql] beyond the keys of
    [keys_unique], as properties of a state of the database. *)

Module Integrity.

(** [sku VARCHAR(100) NOT NULL UNIQUE]. *)
Definition skus_unique (s : Store) : Prop := NoDup (p_sku <$> products s).

(** [id INT PRIMARY KEY AUTO_INCREMENT] of the two tables the handler
    writes besides [products]. *)
Definition row_ids_unique (s : Store) : Prop :=
  NoDup (i_id <$> inventory s) ∧ NoDup (m_id <$> inventory_movements s).

(** The [FOREIGN KEY] clauses of [products], [inventory] and
    [inventory_movements]. *)
Definition foreign_keys (s : Store) : Prop :=
  Forall (λ p, p_companyId p ∈ c_id <$> companies s
               ∧ Products.references pc_id (product_categories s) (p_categoryId p)
               ∧ Products.references s_id (suppliers s) (p_supplierId p))
    (products s)
  ∧ Forall (λ i, i_productId i ∈ p_id <$> products s
                 ∧ i_warehouseId i ∈ w_id <$> warehouses s) (inventory s)
  ∧ Forall (λ m, m_inventoryId m ∈ i_id <$> inventory s) (inventory_movements s).

Definition consistent (s : Store) : Prop :=
  keys_unique s ∧ skus_unique s ∧ row_ids_unique s ∧ foreign_keys s.

Global Instance consistent_dec s : Decision (consistent s).
Proof. unfold consistent, skus_unique, row_ids_unique, foreign_keys. apply _. Defined.

(** [FOREIGN KEY (product_id) REFERENCES products(id)] of [sales_data]. *)
Definition sales_reference_products (s : Store) : Prop :=
  Forall (λ sd, sd_productId sd ∈ p_id <$> products s) (sales_data s).

(** No inventory record puts a product of one company in a warehouse of
    another. *)
Definition same_tenant (s : Store) : Prop :=
  Forall (λ i,
    Forall (λ p,
      Forall (λ w, Alerts.links p i w → p_companyId p = w_companyId w)
        (warehouses s)) (products s)) (inventory s).

Global Instance same_tenant_dec s : Decision (same_tenant s).
Proof. unfold same_tenant, Alerts.links. apply _. Defined.

End Integrity.

(** ** The rows of a successful request

    The database a request for [value] leaves when all of its writes run:
    the rows of [Product.create], [Inventory.create] and
    [InventoryMovement.create] in [routes/products.js], with the ids the
    counters give. *)

Module Provisioning.
Import Products.

Definition new_product (user : User) (value : Value) (db : Store) : Product :=
  {| p_id := next_id (p_id <$> products db);
     p_companyId := u_companyId user;
     p_categoryId := v_categoryId value;
     p_supplierId := v_supplierId value;
     p_name := v_name value;
     p_sku := v_sku value;
     p_description := v_description value;
     p_price := v_price value;
     p_cost := v_cost value;
     p_weight := v_weight value;
     p_dimensions := v_dimensions value;
     p_lowStockThreshold := Some (default 10 (v_lowStockThreshold value));
     p_isActive := Some true |}.

Definition new_record (now : Z) (user : User) (value : Value) (db : Store)
    : Inventory :=
  {| i_id := next_id (i_id <$> inventory db);
     i_productId := next_id (p_id <$> products db);
     i_warehouseId := v_warehouseId value;
     i_quantity := v_initialQuantity value;
     i_reservedQuantity := 0;
     i_lastUpdated := now |}.

Definition new_movement (user : User) (value : Value) (db : Store)
    : InventoryMovement :=
  {| m_id := next_id (m_id <$> inventory_movements db);
     m_inventoryId := next_id (i_id <$> inventory db);
     m_movementType := mv_in;
     m_quantity := v_initialQuantity value;
     m_previousQuantity := 0;
     m_newQuantity := v_initialQuantity value;
     m_referenceId := Some (pretty (next_id (p_id <$> products db)));
     m_referenceType := Some "initial_stock"%string;
     m_notes := Some "Initial stock entry for new product"%string;
     m_userId := Some (u_id user) |}.

Definition provisioned (now : Z) (user : User) (value : Value) (db : Store)
    : Store :=
  mkStore (companies db) (warehouses db) (suppliers db)
    (product_categories db) (products db ++ [new_product user value db])
    (inventory db ++ [new_record now user value db])
    (inventory_movements db ++ [new_movement user value db]) (sales_data db).

End Provisioning.

(** ** Example data

    Small databases in the shape of the sample rows of
    [database/schema.sql], and request bodies, on which the handlers are
    evaluated. *)

Module Examples.
Import JS Alerts Products.

(** Three low-stock products of company 1; the second supplier is
    inactive. *)
Definition demo_store : Store := {|
  companies := [mkCompany 1 (Some true); mkCompany 2 (Some true)];
  warehouses := [mkWarehouse 1 1 "Main Warehouse" (Some true);
                 mkWarehouse 2 1 "Secondary Warehouse" (Some true);
                 mkWarehouse 3 2 "Central Hub" (Some true)];
  suppliers := [mkSupplier 1 "Widget Supplier Corp"
                  (Some "orders@widgetsupplier.com") (Some 7) (Some true);
                mkSupplier 2 "Parts & Components Inc"
                  (Some "sales@partscomponents.com") (Some 7) (Some false)];
  product_categories := [mkProductCategory 1 "Electronics" (Some 15);
                         mkProductCategory 2 "Hardware" (Some 10)];
  products := [mkProduct 1 1 (Some 1) (Some 1) "Widget Pro 2000" "WID-PRO-2000" None
                 (Q2Qc (29999 # 100)) None None None (Some 20) (Some true);
               mkProduct 2 1 (Some 1) None "Standard Widget" "WID-STD-100" None
                 (Q2Qc (9999 # 100)) None None None None (Some true);
               mkProduct 3 1 (Some 2) (Some 2) "Premium Connector" "CON-PREM-50" None
                 (Q2Qc (4999 # 100)) None None None (Some 15) (Some true)];
  inventory := [mkInventory 1 1 1 30 10 0; mkInventory 2 1 2 75 5 0;
                mkInventory 3 2 1 12 2 0; mkInventory 4 3 1 8 0 0];
  inventory_movements := [];
  sales_data := [mkSalesData 1 1 5 99; mkSalesData 1 1 3 97; mkSalesData 1 1 2 97;
                 mkSalesData 2 1 4 80; mkSalesData 3 1 6 70; mkSalesData 3 1 1 95]
|}.


(** The alert for product 1 in warehouse 1 on day 100. *)
Definition demo_alert : Alert :=
  {| a_product_id := 1; a_product_name := "Widget Pro 2000";
     a_sku := "WID-PRO-2000"; a_warehouse_id := 1;
     a_warehouse_name := "Main Warehouse"; a_current_stock := 20;
     a_threshold := 20; a_days_until_stockout := of_Z 4;
     a_supplier := Some {| si_id := 1;
       si_name := Some "Widget Supplier Corp";
       si_contact_email := Some "orders@widgetsupplier.com";
       si_lead_time_days := Some 7 |} |}.


(** The conversions of a runtime given by tables, [NaN] elsewhere. *)
Fixpoint assoc {A B} `{EqDecision A} (k : A) (tbl : list (A * B)) : option B :=
  match tbl with
  | [] => None
  | (k', v) :: rest => if decide (k = k') then Some v else assoc k rest
  end.

Definition table_runtime (numbers ints : list (string * Number))
    (texts : list (Number * string)) : Runtime :=
  {| ToNumber := λ s, default NaN (assoc s numbers);
     parseInt := λ s, default NaN (assoc s ints);
     ToString := λ x, default "NaN"%string (assoc x texts) |}.

(** The conversions of JavaScript on the strings and numbers the examples
    meet: [Number("10")] is 10, [parseInt("10")] is 10 and [String(10)] is
    ["10"]; [Number("1000000000000000000001")] is the number nearest to
    it, [10 ^ 21], which [String] prints as ["1e+21"], of which [parseInt]
    reads the digit before the [e]. *)
Definition demo_runtime : Runtime :=
  table_runtime
    [("1", of_Z 1); ("2", of_Z 2); ("3", of_Z 3); ("10", of_Z 10);
     ("1000000000000000000001", of_Z 1000000000000000000001)]%string
    [("0", of_Z 0); ("1", of_Z 1); ("2", of_Z 2); ("3", of_Z 3);
     ("10", of_Z 10); ("20", of_Z 20); ("100", of_Z 100);
     ("1e+21", of_Z 1);
     ("1000000000000000000001", of_Z 1000000000000000000001)]%string
    [(of_Z 0, "0"); (of_Z 1, "1"); (of_Z 2, "2"); (of_Z 3, "3");
     (of_Z 10, "10"); (of_Z 20, "20"); (of_Z 100, "100");
     (of_Z (10 ^ 21), "1e+21")]%string.

(** One product with 35 units in stock that sold 7 units on 6 days. *)
Definition velocity_store : Store := {|
  companies := [mkCompany 1 (Some true)];
  warehouses := [mkWarehouse 1 1 "Main Warehouse" (Some true)];
  suppliers := [];
  product_categories := [];
  products := [mkProduct 1 1 None None "Widget Pro 2000" "WID-PRO-2000" None
                 (Q2Qc (29999 # 100)) None None None (Some 50) (Some true)];
  inventory := [mkInventory 1 1 1 35 0 0];
  inventory_movements := [];
  sales_data := [mkSalesData 1 1 2 94; mkSalesData 1 1 1 95; mkSalesData 1 1 1 96;
                 mkSalesData 1 1 1 97; mkSalesData 1 1 1 98; mkSalesData 1 1 1 99]
|}.

(** A hundred and one low-stock products of one category, fifty-one of
    them with one unit in stock and fifty with none. *)
Definition rounding_store : Store := {|
  companies := [mkCompany 1 (Some true)];
  warehouses := [mkWarehouse 1 1 "Main Warehouse" (Some true)];
  suppliers := [];
  product_categories := [mkProductCategory 1 "Electronics" (Some 15)];
  products :=
    (λ n, mkProduct n 1 (Some 1) None "Widget" (pretty n) None (Q2Qc 1) None None
            None None (Some true)) <$> seqZ 1 101;
  inventory :=
    (λ n, mkInventory n n 1 (if decide (n ≤ 51) then 1 else 0) 0 0) <$> seqZ 1 101;
  inventory_movements := [];
  sales_data := (λ n, mkSalesData n 1 2 90) <$> seqZ 1 101
|}.


(** Twenty-five low-stock products of company 1 in one warehouse, with
    available stocks 1 to 25 in scrambled storage order. *)
Definition paged_store : Store := {|
  companies := [mkCompany 1 (Some true)];
  warehouses := [mkWarehouse 1 1 "Main Warehouse" (Some true)];
  suppliers := [];
  product_categories := [];
  products :=
    (λ n, mkProduct n 1 None None "Widget" (pretty n) None (Q2Qc 1) None None
            None (Some 100) (Some true)) <$> seqZ 1 25;
  inventory := (λ n, mkInventory n n 1 ((n * 7) `mod` 26) 0 0) <$> seqZ 1 25;
  inventory_movements := [];
  sales_data := (λ n, mkSalesData n 1 2 90) <$> seqZ 1 25
|}.


(** Stocks 0, 3 and 8 in one category, and a product without category. *)
Definition summary_store : Store := {|
  companies := [mkCompany 1 (Some true)];
  warehouses := [mkWarehouse 1 1 "Main Warehouse" (Some true)];
  suppliers := [];
  product_categories := [mkProductCategory 1 "Electronics" (Some 15)];
  products := [mkProduct 1 1 (Some 1) None "Widget Pro 2000" "WID-PRO-2000" None
                 (Q2Qc 1) None None None None (Some true);
               mkProduct 2 1 (Some 1) None "Standard Widget" "WID-STD-100" None
                 (Q2Qc 1) None None None None (Some true);
               mkProduct 3 1 (Some 1) None "Premium Connector" "CON-PREM-50" None
                 (Q2Qc 1) None None None None (Some true);
               mkProduct 4 1 None None "Loose Part" "LOOSE-1" None
                 (Q2Qc 1) None None None None (Some true)];
  inventory := [mkInventory 1 1 1 5 5 0; mkInventory 2 2 1 3 0 0;
                mkInventory 3 3 1 10 2 0; mkInventory 4 4 1 7 0 0];
  inventory_movements := [];
  sales_data := [mkSalesData 1 1 5 99; mkSalesData 2 1 3 97;
                 mkSalesData 3 1 2 97; mkSalesData 4 1 1 96]
|}.


(** A database with one product, and two request bodies. *)
Definition sample_store : Store := {|
  companies := [mkCompany 1 (Some true); mkCompany 2 (Some true)];
  warehouses := [mkWarehouse 1 1 "Main Warehouse" (Some true);
                 mkWarehouse 2 1 "Secondary Warehouse" (Some true);
                 mkWarehouse 3 2 "Central Hub" (Some true)];
  suppliers := [mkSupplier 1 "Widget Supplier Corp"
                  (Some "orders@widgetsupplier.com") (Some 7) (Some true)];
  product_categories := [mkProductCategory 1 "Electronics" (Some 15)];
  products := [mkProduct 1 1 (Some 1) (Some 1) "Widget Pro 2000" "WID-PRO-2000" None
                 (Q2Qc (29999 # 100)) None None None (Some 20) (Some true)];
  inventory := [mkInventory 1 1 1 150 10 0; mkInventory 2 1 2 75 5 0];
  inventory_movements := [];
  sales_data := []
|}.

Definition gadget : Body := {|
  b_name := SString "Gadget"; b_sku := SString "GAD-1"; b_description := SUndefined;
  b_price := NNumber (Q2Qc (1999 # 100)); b_cost := NUndefined; b_weight := NUndefined;
  b_dimensions := SUndefined; b_categoryId := NNumber (Q2Qc 1); b_supplierId := NUndefined;
  b_lowStockThreshold := NUndefined; b_warehouseId := NNumber (Q2Qc 2);
  b_initialQuantity := NNumber (Q2Qc 40); b_unknown := [] |}.

Definition malformed : Body := {|
  b_name := SString ""; b_sku := SString ""; b_description := SUndefined;
  b_price := NNumber (Q2Qc (-1)); b_cost := NUndefined; b_weight := NUndefined;
  b_dimensions := SUndefined; b_categoryId := NUndefined; b_supplierId := NUndefined;
  b_lowStockThreshold := NUndefined; b_warehouseId := NNumber (Q2Qc 2);
  b_initialQuantity := NNumber (Q2Qc 40); b_unknown := [] |}.



(** The database after a first request for [gadget] has committed. *)
Definition after_winner : Store :=
  (createProduct no_faults 5 (mkUser 7 1) gadget sample_store).2.


End Examples.

(** ** Example requests

    A token verifier, request bodies and storage failures on which the
    middleware and the handlers are evaluated. *)

Module Scenarios.
Import Alerts Products Auth Examples.

(** The payload of the token of a user of company 1; it has no role. *)
Definition alice_payload : Decoded :=
  {| d_userId := Some 7; d_id := None; d_companyId := 1;
     d_email := Some "alice@example.com"%string; d_role := None |}.

(** A [jwt.verify] that accepts one token, finds a second one expired and
    rejects all others. *)
Definition demo_verify (token : string) : JwtError + Decoded :=
  if decide (token = "alice"%string) then inr alice_payload
  else if decide (token = "stale"%string) then inl TokenExpiredError
  else inl JsonWebTokenError.

Definition alice : ReqUser := req_user alice_payload (mkCompany 1 (Some true)).

(** [gadget] for the warehouse of another company. *)
Definition abroad : Body := {|
  b_name := SString "Gadget"; b_sku := SString "GAD-1"; b_description := SUndefined;
  b_price := NNumber (Q2Qc (1999 # 100)); b_cost := NUndefined; b_weight := NUndefined;
  b_dimensions := SUndefined; b_categoryId := NNumber (Q2Qc 1); b_supplierId := NUndefined;
  b_lowStockThreshold := NUndefined; b_warehouseId := NNumber (Q2Qc 3);
  b_initialQuantity := NNumber (Q2Qc 40); b_unknown := [] |}.

(** A storage layer that loses the connection at [commit]. *)
Definition commit_fails : Faults :=
  λ q, if decide (q = q_commit) then Some SequelizeDatabaseError else None.

(** [sample_store] with an inventory record of a product that does not
    exist, as a database without the foreign key would allow. *)
Definition dangling_store : Store :=
  mkStore (companies sample_store) (warehouses sample_store)
    (suppliers sample_store) (product_categories sample_store)
    (products sample_store)
    (inventory sample_store ++ [mkInventory 3 2 2 0 0 0])
    (inventory_movements sample_store) (sales_data sample_store).

(** [demo_store] after a request for [gadget] has committed. *)
Definition demo_store_after : Store :=
  (createProduct no_faults 5 (mkUser 7 1) gadget demo_store).2.

End Scenarios.

(** * Verification *)

Ltac by_compute := apply (bool_decide_unpack _); vm_compute; exact I.

Module AlertsProofs.
Import JS Alerts Examples.

(** ** Facts about lists used as tables *)

Section tables.
Context {A B : Type}.
Implicit Types (l : list A) (f : A → B).

Lemma NoDup_fmap_elem_inj f l x y :
  NoDup (f <$> l) → x ∈ l → y ∈ l → f x = f y → x = y.
Proof.
  induction l as [|a l IH]; csimpl; [by inversion 2|].
  rewrite NoDup_cons, list_elem_of_fmap.
  intros [Hnot Hnd] Hx Hy Hf.
  apply elem_of_cons in Hx as [->|Hx]; apply elem_of_cons in Hy as [->|Hy];
    [done| | |by apply IH].
  - destruct Hnot; eauto.
  - destruct Hnot; eauto.
Qed.

Lemma filter_at_most_one (P : A → Prop) `{∀ x, Decision (P x)} l :
  (∀ x y, x ∈ l → y ∈ l → P x → P y → x = y) → NoDup l →
  filter P l = [] ∨ ∃ x, filter P l = [x].
Proof.
  intros Huniq Hnd.
  destruct (filter P l) as [|x [|y k]] eqn:E; [by left|right; eauto|].
  exfalso.
  assert (Hk : NoDup (x :: y :: k)) by (rewrite <- E; by apply NoDup_filter).
  assert (Hx : x ∈ filter P l) by (rewrite E; by left).
  assert (Hy : y ∈ filter P l) by (rewrite E; right; by left).
  apply list_elem_of_filter in Hx as [??], Hy as [??].
  assert (x = y) as -> by eauto.
  apply NoDup_cons in Hk as [Hk _]. apply Hk. by left.
Qed.

(** A left join on a key column yields exactly one row. *)
Lemma left_join_key f (k : option B) `{EqDecision B} l :
  NoDup (f <$> l) →
  left_join (λ b, k = Some (f b)) l = [head (filter (λ b, k = Some (f b)) l)].
Proof.
  intros Hnd. unfold left_join.
  destruct (filter_at_most_one (λ b, k = Some (f b)) l) as [E|[x E]].
  - intros x y Hx Hy -> [= Hf]. eauto using NoDup_fmap_elem_inj.
  - eauto using NoDup_fmap_1.
  - by rewrite E.
  - by rewrite E.
Qed.

Lemma remove_dups_NoDup `{EqDecision A} l : NoDup l → remove_dups l = l.
Proof.
  induction 1 as [|x l Hx Hl IH]; csimpl; [done|].
  destruct (decide_rel (∈) x l); [done|]. by rewrite IH.
Qed.
End tables.

Lemma filter_fmap_comm {A B} (f : A → B) (P : B → Prop) `{∀ y, Decision (P y)}
    (l : list A) :
  filter P (f <$> l) = f <$> filter (λ x, P (f x)) l.
Proof.
  induction l as [|x l IH]; [done|]. csimpl. rewrite !filter_cons, IH.
  by destruct (decide (P (f x))).
Qed.

Lemma SUM_app l1 l2 : SUM (l1 ++ l2) = SUM l1 + SUM l2.
Proof. unfold SUM. induction l1; csimpl; lia. Qed.

Lemma SUM_Permutation l1 l2 : l1 ≡ₚ l2 → SUM l1 = SUM l2.
Proof. unfold SUM. induction 1; csimpl; lia. Qed.

(** ** The joins of the alert queries *)

Section joins.
Context (s : Store) (Hku : keys_unique s).

Lemma category_join p :
  left_join (λ pc, p_categoryId p = Some (pc_id pc)) (product_categories s)
  = [linked_category s p].
Proof. apply left_join_key, Hku. Qed.

Lemma supplier_join p :
  left_join (λ sp, p_supplierId p = Some (s_id sp)) (suppliers s)
  = [linked_supplier s p].
Proof. apply left_join_key, Hku. Qed.

Lemma elem_of_from_joins p i w pc :
  (p, i, w, pc) ∈ from_joins s ↔
    p ∈ products s ∧ i ∈ inventory s ∧ w ∈ warehouses s ∧ links p i w
    ∧ pc = linked_category s p.
Proof.
  unfold from_joins, links. rewrite list_elem_of_bind. split.
  - intros (p' & Hin & Hp).
    apply list_elem_of_bind in Hin as (i' & Hin & Hi).
    apply list_elem_of_bind in Hin as (w' & Hin & Hw).
    rewrite category_join in Hin.
    apply list_elem_of_bind in Hin as (pc' & Hin & Hpc).
    apply list_elem_of_singleton in Hin, Hpc.
    apply list_elem_of_filter in Hi as [? ?], Hw as [? ?].
    by simplify_eq.
  - intros (Hp & Hi & Hw & [E1 E2] & ->). exists p. split; [|done].
    apply list_elem_of_bind. exists i. split; [|by apply list_elem_of_filter].
    apply list_elem_of_bind. exists w. split; [|by apply list_elem_of_filter].
    rewrite category_join. apply list_elem_of_bind.
    eexists. split; by apply list_elem_of_singleton.
Qed.

Lemma NoDup_from_joins : NoDup (from_joins s).
Proof.
  destruct Hku as [Hp Hw Hc _ Hi].
  apply NoDup_fmap_1 in Hp, Hw, Hi.
  unfold from_joins. apply NoDup_bind; [| |done].
  { intros p1 p2 y _ _ H1 H2.
    repeat (apply list_elem_of_bind in H1 as (? & H1 & _)).
    repeat (apply list_elem_of_bind in H2 as (? & H2 & _)).
    apply list_elem_of_singleton in H1, H2. by simplify_eq. }
  intros p _. apply NoDup_bind; [| |by apply NoDup_filter].
  { intros i1 i2 y _ _ H1 H2.
    repeat (apply list_elem_of_bind in H1 as (? & H1 & _)).
    repeat (apply list_elem_of_bind in H2 as (? & H2 & _)).
    apply list_elem_of_singleton in H1, H2. by simplify_eq. }
  intros i _. apply NoDup_bind; [| |by apply NoDup_filter].
  { intros w1 w2 y _ _ H1 H2.
    repeat (apply list_elem_of_bind in H1 as (? & H1 & _)).
    repeat (apply list_elem_of_bind in H2 as (? & H2 & _)).
    apply list_elem_of_singleton in H1, H2. by simplify_eq. }
  intros w _. rewrite category_join, bind_singleton. apply NoDup_singleton.
Qed.

(** Two rows of the join with the same product and warehouse ids are the
    same row. *)
Lemma from_joins_key_inj j1 j2 :
  j1 ∈ from_joins s → j2 ∈ from_joins s →
  p_id j1.1.1.1 = p_id j2.1.1.1 → w_id j1.1.2 = w_id j2.1.2 → j1 = j2.
Proof.
  destruct j1 as [[[p1 i1] w1] pc1], j2 as [[[p2 i2] w2] pc2]; simpl.
  rewrite !elem_of_from_joins. unfold links.
  intros (Hp1 & Hi1 & Hw1 & [E1 F1] & ->) (Hp2 & Hi2 & Hw2 & [E2 F2] & ->) Ep Ew.
  assert (p1 = p2) as ->
    by (eapply (NoDup_fmap_elem_inj p_id); eauto; apply Hku).
  assert (w1 = w2) as ->
    by (eapply (NoDup_fmap_elem_inj w_id); eauto; apply Hku).
  assert (i1 = i2) as ->; [|done].
  eapply (NoDup_fmap_elem_inj (λ i, (i_productId i, i_warehouseId i)));
    eauto; [apply Hku|]. simpl. congruence.
Qed.

Lemma from_joins_suppliers_eq :
  from_joins_suppliers s
  = (λ j, (j, linked_supplier s j.1.1.1)) <$> from_joins s.
Proof.
  unfold from_joins_suppliers. induction (from_joins s) as [|[[[p i] w] pc] l IH];
    [done|].
  rewrite bind_cons, IH, supplier_join. done.
Qed.
End joins.

(** ** The queries select the qualifying triples *)

Section candidates.
Context (s : Store) (Hku : keys_unique s) (companyId today : Z).

Lemma EXISTS_recent_sales_sold p w :
  EXISTS_recent_sales s (p_id p) (w_id w) (thirtyDaysAgo today)
  ↔ sold_recently s today p w.
Proof.
  unfold EXISTS_recent_sales, recent_sales, sold_recently, thirtyDaysAgo.
  rewrite Exists_exists. split.
  - intros Hne. destruct (filter _ _) as [|sd l] eqn:E; [done|].
    exists sd.
    assert (Hsd : sd ∈ filter
      (λ sd, sd_productId sd = p_id p ∧ sd_warehouseId sd = w_id w
             ∧ today - 30 ≤ sd_saleDate sd) (sales_data s))
      by (rewrite E; by left).
    apply list_elem_of_filter in Hsd. tauto.
  - intros (sd & Hin & Hsd) E.
    assert (Hsd' : sd ∈ filter
      (λ sd, sd_productId sd = p_id p ∧ sd_warehouseId sd = w_id w
             ∧ today - 30 ≤ sd_saleDate sd) (sales_data s))
      by by apply list_elem_of_filter.
    rewrite E in Hsd'. by apply elem_of_nil in Hsd'.
Qed.

Lemma COALESCE_effective p :
  COALESCE_threshold (p_lowStockThreshold p)
    (linked_category s p ≫= pc_lowStockThreshold)
  = effective_threshold s p.
Proof.
  unfold COALESCE_threshold, effective_threshold.
  destruct (p_lowStockThreshold p); [done|].
  by destruct (linked_category s p) as [pc|].
Qed.

Lemma where_clause_qualifies p i w :
  where_clause s companyId (thirtyDaysAgo today) (p, i, w, linked_category s p)
  ↔ qualifies s companyId today p w i.
Proof.
  unfold where_clause, qualifies, available_stock.
  rewrite COALESCE_effective, EXISTS_recent_sales_sold. tauto.
Qed.

Lemma elem_of_qualifying p i w :
  (p, i, w) ∈ qualifying s companyId today ↔
    p ∈ products s ∧ i ∈ inventory s ∧ w ∈ warehouses s ∧ links p i w
    ∧ qualifies s companyId today p w i.
Proof.
  unfold qualifying. rewrite list_elem_of_filter, list_elem_of_bind. simpl.
  split.
  - intros ([??] & p' & Hin & ?).
    apply list_elem_of_bind in Hin as (i' & Hin & ?).
    apply list_elem_of_bind in Hin as (w' & Hin & ?).
    apply list_elem_of_singleton in Hin. by simplify_eq.
  - intros (? & ? & ? & ? & ?). split; [done|]. exists p. split; [|done].
    apply list_elem_of_bind. exists i. split; [|done].
    apply list_elem_of_bind. exists w. split; [|done].
    by apply list_elem_of_singleton.
Qed.

Lemma NoDup_qualifying : NoDup (qualifying s companyId today).
Proof.
  destruct Hku as [Hp Hw _ _ Hi]. apply NoDup_fmap_1 in Hp, Hw, Hi.
  unfold qualifying. apply NoDup_filter, NoDup_bind; [| |done].
  { intros p1 p2 y _ _ H1 H2.
    repeat (apply list_elem_of_bind in H1 as (? & H1 & _)).
    repeat (apply list_elem_of_bind in H2 as (? & H2 & _)).
    apply list_elem_of_singleton in H1, H2. by simplify_eq. }
  intros p _. apply NoDup_bind; [| |done].
  { intros i1 i2 y _ _ H1 H2.
    repeat (apply list_elem_of_bind in H1 as (? & H1 & _)).
    repeat (apply list_elem_of_bind in H2 as (? & H2 & _)).
    apply list_elem_of_singleton in H1, H2. by simplify_eq. }
  intros i _. apply NoDup_bind; [| |done].
  { intros w1 w2 y _ _ H1 H2.
    apply list_elem_of_singleton in H1, H2. by simplify_eq. }
  intros w _. apply NoDup_singleton.
Qed.

Lemma elem_of_where_rows j :
  j ∈ filter (where_clause s companyId (thirtyDaysAgo today)) (from_joins s)
  ↔ ∃ t, j = with_category s t ∧ t ∈ qualifying s companyId today.
Proof.
  destruct j as [[[p i] w] pc].
  rewrite list_elem_of_filter, elem_of_from_joins by done. split.
  - intros (Hw & ? & ? & ? & ? & ->). exists (p, i, w). split; [done|].
    apply elem_of_qualifying. by rewrite <- where_clause_qualifies.
  - intros ([[p' i'] w'] & [= -> -> -> ->] & Hq).
    apply elem_of_qualifying in Hq as (? & ? & ? & ? & ?).
    by rewrite where_clause_qualifies.
Qed.

Lemma where_rows_Permutation :
  filter (where_clause s companyId (thirtyDaysAgo today)) (from_joins s)
  ≡ₚ with_category s <$> qualifying s companyId today.
Proof.
  apply NoDup_Permutation.
  - by apply NoDup_filter, NoDup_from_joins.
  - apply NoDup_fmap_2, NoDup_qualifying. by intros ?? [= ?].
  - intros j. by rewrite elem_of_where_rows, list_elem_of_fmap.
Qed.

Lemma qualifying_key_inj t1 t2 :
  t1 ∈ qualifying s companyId today → t2 ∈ qualifying s companyId today →
  p_id t1.1.1 = p_id t2.1.1 → w_id t1.2 = w_id t2.2 → t1 = t2.
Proof.
  intros H1 H2 Ep Ew.
  assert (E : with_category s t1 = with_category s t2); [|by injection E].
  apply (from_joins_key_inj s Hku); [| |done..].
  - eapply list_elem_of_filter, elem_of_where_rows; eauto.
  - eapply list_elem_of_filter, elem_of_where_rows; eauto.
Qed.

Lemma NoDup_candidate_rows :
  NoDup (candidate_row s today <$> qualifying s companyId today).
Proof.
  apply NoDup_fmap_2_strong, NoDup_qualifying.
  intros t1 t2 H1 H2 E. apply qualifying_key_inj; [done..| |].
  - by apply (f_equal r_product_id) in E.
  - by apply (f_equal r_warehouse_id) in E.
Qed.

Lemma candidates_eq :
  candidates s companyId (thirtyDaysAgo today)
  = (λ j, select_row s (thirtyDaysAgo today) (j, linked_supplier s j.1.1.1))
      <$> filter (where_clause s companyId (thirtyDaysAgo today)) (from_joins s).
Proof.
  unfold candidates. rewrite from_joins_suppliers_eq by done.
  rewrite filter_fmap_comm, <- list_fmap_compose. simpl.
  apply remove_dups_NoDup.
  apply NoDup_fmap_2_strong; [|by apply NoDup_filter, NoDup_from_joins].
  intros j1 j2 [_ H1]%list_elem_of_filter [_ H2]%list_elem_of_filter Er.
  apply (from_joins_key_inj s Hku); [done..| |].
  - apply (f_equal r_product_id) in Er.
    by destruct j1 as [[[??]?]?], j2 as [[[??]?]?].
  - apply (f_equal r_warehouse_id) in Er.
    by destruct j1 as [[[??]?]?], j2 as [[[??]?]?].
Qed.

(** The candidates of the alert query are the rows of the qualifying
    triples, each once. *)
Lemma candidates_Permutation :
  candidates s companyId (thirtyDaysAgo today)
  ≡ₚ candidate_row s today <$> qualifying s companyId today.
Proof.
  rewrite candidates_eq, where_rows_Permutation, <- list_fmap_compose.
  apply reflexive_eq, list_fmap_ext. by intros ? [[??]?] ?.
Qed.

Lemma countQuery_qualifying :
  countQuery s companyId (thirtyDaysAgo today)
  = Z.of_nat (length (qualifying s companyId today)).
Proof.
  unfold countQuery. f_equal.
  rewrite remove_dups_NoDup.
  - by rewrite length_fmap, where_rows_Permutation, length_fmap.
  - apply NoDup_fmap_2_strong; [|by apply NoDup_filter, NoDup_from_joins].
    intros j1 j2 [_ H1]%list_elem_of_filter [_ H2]%list_elem_of_filter [= ??].
    by apply (from_joins_key_inj s Hku).
Qed.
End candidates.

(** ** Sales velocity *)

Lemma SUM_zero {A} (l : list A) : SUM ((λ _, 0) <$> l) = 0.
Proof. unfold SUM. induction l; csimpl; lia. Qed.

Lemma SUM_plus {A} (f g : A → Z) l :
  SUM ((λ x, f x + g x) <$> l) = SUM (f <$> l) + SUM (g <$> l).
Proof. unfold SUM. induction l; csimpl; lia. Qed.

Lemma SUM_indicator {A} `{EqDecision A} (a : A) (c : Z) l :
  NoDup l → a ∈ l → SUM ((λ x, if decide (a = x) then c else 0) <$> l) = c.
Proof.
  unfold SUM. induction 1 as [|x l Hx Hl IH]; [by intros ?%elem_of_nil|].
  csimpl. intros [->|Ha]%elem_of_cons.
  - rewrite decide_True by done.
    fold (SUM ((λ y, if decide (x = y) then c else 0) <$> l)).
    replace (SUM _) with 0; [lia|]. symmetry.
    erewrite list_fmap_ext; [apply (SUM_zero l)|].
    intros ? y Hy%list_elem_of_lookup_2. simpl.
    destruct (decide (x = y)) as [->|]; done.
  - rewrite decide_False by (by intros ->). rewrite IH by done. lia.
Qed.

(** Summing the per-date sums adds up every row once. *)
Lemma SUM_group_by (rows : list SalesData) (dates : list Z) :
  NoDup dates → (∀ sd, sd ∈ rows → sd_saleDate sd ∈ dates) →
  SUM ((λ d, SUM (sd_quantitySold <$> filter (λ sd, sd_saleDate sd = d) rows))
         <$> dates)
  = SUM (sd_quantitySold <$> rows).
Proof.
  intros Hnd. induction rows as [|sd rows IH]; intros Hin.
  - apply (SUM_zero dates).
  - csimpl. unfold SUM at 3. simpl. fold (SUM (sd_quantitySold <$> rows)).
    rewrite <- IH by (intros; apply Hin; by right).
    rewrite <- (SUM_indicator (sd_saleDate sd) (sd_quantitySold sd) dates)
      at 1 by (try apply Hin; by try left).
    rewrite <- SUM_plus. f_equal. apply list_fmap_ext. intros _ d _. simpl.
    rewrite filter_cons. by destruct (decide (sd_saleDate sd = d)).
Qed.

Lemma SUM_daily_sales rows : SUM (daily_sales rows) = units_sold rows.
Proof.
  apply SUM_group_by; [apply NoDup_remove_dups|].
  intros sd Hsd. apply elem_of_remove_dups, list_elem_of_fmap. eauto.
Qed.

Lemma length_daily_sales rows :
  Z.of_nat (length (daily_sales rows)) = distinct_sale_dates rows.
Proof. unfold daily_sales, distinct_sale_dates. by rewrite length_fmap. Qed.

Lemma AVG_nonempty (l : list Z) :
  l ≠ [] → AVG l = Some (DECIMAL_div (SUM l) (Z.of_nat (length l)) 4).
Proof. by destruct l. Qed.

(** The average of the query is the total sold over the number of
    distinct sale dates, as a [DECIMAL] of four decimals. *)
Lemma avg_daily_sales_spec s today pid wid :
  avg_daily_sales s pid wid (thirtyDaysAgo today)
  = DECIMAL_div (units_sold (window_sales s today pid wid))
      (distinct_sale_dates (window_sales s today pid wid)) 4.
Proof.
  unfold avg_daily_sales.
  change (recent_sales s pid wid (thirtyDaysAgo today))
    with (window_sales s today pid wid).
  rewrite <- SUM_daily_sales, <- length_daily_sales.
  by destruct (daily_sales (window_sales s today pid wid)).
Qed.

(** ** The numbers of the stockout computation *)

Lemma gt_or_zero (x : Number) : gt (or_zero x) (of_Z 0) = gt x (of_Z 0).
Proof. by destruct x. Qed.

Lemma or_zero_positive (x : Number) : gt x (of_Z 0) = true → or_zero x = x.
Proof. by destruct x. Qed.

Lemma Math_max_0_not_negative (x : Number) : gt (of_Z 0) (Math_max_0 x) = false.
Proof.
  unfold Math_max_0. destruct x as [[]|[]| |[] m e]; try done.
Qed.

Lemma daysUntilStockout_spec (avg : Decimal) (stock : Z) :
  let a := parseFloat (Some avg) in
  let days := daysUntilStockout avg stock in
  (gt a (of_Z 0) = true →
     days = Math_max_0 (Math_floor (div (of_Z stock) a)))
  ∧ (gt a (of_Z 0) = false → 0 < stock → days = of_Z 90)
  ∧ (stock = 0 → days = of_Z 0)
  ∧ gt (of_Z 0) days = false.
Proof.
  cbv zeta. unfold daysUntilStockout. rewrite gt_or_zero. split_and!.
  - intros Hpos. by rewrite Hpos, or_zero_positive.
  - intros Hneg Hstock. rewrite Hneg. by rewrite decide_True.
  - intros ->. destruct (gt (parseFloat (Some avg)) (of_Z 0)) eqn:Hpos; [|done].
    rewrite or_zero_positive by done.
    by destruct (parseFloat (Some avg)) as [[]|[]| |[] m e].
  - apply Math_max_0_not_negative.
Qed.

Global Instance by_stock_total : Total by_stock.
Proof. intros r1 r2. unfold by_stock. lia. Qed.

(** Claim C3.  Under the primary and unique keys of the schema, the row of
    a linked (product, inventory, warehouse) triple is among the candidates
    of the low-stock query if and only if: the product and the warehouse
    both belong to the requested company and are both active; the
    available stock, quantity minus reserved quantity, is at most the
    effective threshold (the product's own threshold when set, else the
    linked category's default when set, else 10); and some sales row of
    that exact product and warehouse has a sale date no earlier than 30
    days before the day of evaluation. *)
Theorem low_stock_candidate_iff s companyId today p i w :
  keys_unique s →
  p ∈ products s → i ∈ inventory s → w ∈ warehouses s → links p i w →
  candidate_row s today (p, i, w) ∈ candidates s companyId (thirtyDaysAgo today)
  ↔ (p_companyId p = companyId ∧ w_companyId w = companyId)
    ∧ (p_isActive p = Some true ∧ w_isActive w = Some true)
    ∧ available_stock i ≤ effective_threshold s p
    ∧ ∃ sd, sd ∈ sales_data s ∧ sd_productId sd = p_id p
            ∧ sd_warehouseId sd = w_id w ∧ today - 30 ≤ sd_saleDate sd.
Proof.
  intros Hku Hp Hi Hw Hl.
  rewrite candidates_Permutation, list_elem_of_fmap by done.
  transitivity (qualifies s companyId today p w i).
  - split.
    + intros ([[p' i'] w'] & Er & Hq).
      pose proof Hq as (Hp' & Hi' & Hw' & [E1 E2] & ?)%elem_of_qualifying.
      destruct Hl as [F1 F2].
      assert (p = p') as <-.
      { apply (NoDup_fmap_elem_inj p_id (products s)); [apply Hku|done..|].
        by apply (f_equal r_product_id) in Er. }
      assert (w = w') as <-.
      { apply (NoDup_fmap_elem_inj w_id (warehouses s)); [apply Hku|done..|].
        by apply (f_equal r_warehouse_id) in Er. }
      assert (i = i') as <-; [|done].
      apply (NoDup_fmap_elem_inj (λ i, (i_productId i, i_warehouseId i))
               (inventory s)); [apply Hku|done..|].
      simpl. congruence.
    + intros Hq. exists (p, i, w). split; [done|].
      by apply elem_of_qualifying.
  - unfold qualifies, sold_recently. by rewrite Exists_exists.
Qed.

Lemma low_stock_candidate_iff_witness :
  candidate_row demo_store 100
    (mkProduct 2 1 (Some 1) None "Standard Widget" "WID-STD-100" None
       (Q2Qc (9999 # 100)) None None None None (Some true),
     mkInventory 3 2 1 12 2 0,
     mkWarehouse 1 1 "Main Warehouse" (Some true))
  ∈ candidates demo_store 1 (thirtyDaysAgo 100).
Proof.
  apply low_stock_candidate_iff; [by_compute..| |].
  - done.
  - split_and!; [done..|vm_compute; by intros ?|].
    exists (mkSalesData 2 1 4 80). split_and!; [by_compute|done..].
Defined.

(** Threshold resolution: the product's own threshold, else the
    category's, else 10. *)
Example threshold_resolution :
  COALESCE_threshold (Some 5) (Some 20) = 5
  ∧ COALESCE_threshold None (Some 20) = 20
  ∧ COALESCE_threshold None None = 10.
Proof. done. Qed.

(** Stock 100 at 5 units a day lasts 20 days; no stock lasts 0 days; stock
    50 without velocity is given 90 days. *)
Example stockout_projection :
  daysUntilStockout (mkDecimal 50000 4) 100 = of_Z 20
  ∧ daysUntilStockout (mkDecimal 50000 4) 0 = of_Z 0
  ∧ daysUntilStockout (mkDecimal 0 4) 50 = of_Z 90.
Proof. by vm_compute. Qed.

Lemma lowStockQuery_Some s companyId since limit offset results :
  lowStockQuery s companyId since limit offset = Some results →
  ∃ L O, unsigned_literal limit = Some L ∧ unsigned_literal offset = Some O
         ∧ results = take (N.to_nat L)
                       (drop (N.to_nat O) (ordered s companyId since)).
Proof.
  unfold lowStockQuery, LIMIT_OFFSET.
  destruct (unsigned_literal limit) as [L|]; [|done].
  destruct (unsigned_literal offset) as [O|]; [|done].
  intros [= <-]. by exists L, O.
Qed.

Lemma lowStockQuery_subseteq s companyId since limit offset results r :
  lowStockQuery s companyId since limit offset = Some results →
  r ∈ results → r ∈ candidates s companyId since.
Proof.
  intros (L & O & _ & _ & ->)%lowStockQuery_Some Hr.
  apply (sublist_subseteq _ _ (sublist_take _ _)) in Hr.
  apply (sublist_subseteq _ _ (sublist_drop _ _)) in Hr.
  unfold ordered in Hr. by rewrite merge_sort_Permutation in Hr.
Qed.

Lemma query_inr {A} failures q (result : option A) rows :
  query failures q result = inr rows → failures q = None ∧ result = Some rows.
Proof.
  unfold query. destruct (failures q); [done|].
  destruct result; [|done]. by intros [= ->].
Qed.

Lemma getLowStockAlerts_Ok rt failures user companyId page limit today s
    alerts total pg :
  getLowStockAlerts rt failures user companyId page limit today s
  = Ok alerts total pg →
  u_companyId user = companyId
  ∧ total = countQuery s companyId (thirtyDaysAgo today)
  ∧ ∃ results,
      lowStockQuery s companyId (thirtyDaysAgo today) (limit_text rt limit)
        (offset_text rt page limit) = Some results
      ∧ alerts = to_alert <$> results.
Proof.
  unfold getLowStockAlerts. case_decide as Hu; [done|].
  destruct (query failures lowStock_statement _) as [e|results] eqn:Hq;
    [by destruct e|].
  destruct (query failures count_statement _) as [e|n] eqn:Hc;
    [by destruct e|].
  apply query_inr in Hq as [_ Hq], Hc as [_ [= <-]].
  intros [= <- <- _]. split_and!; [by destruct (decide (u_companyId user = companyId))|done|].
  by exists results.
Qed.

(** Claim C4, amended.  For every alert the handler returns, with [avg]
    the average daily sales as the handler reads it, that is the total
    quantity sold over the sales rows of the pair in the trailing 30-day
    window divided by the number of distinct sale dates among them,
    rounded to four decimals by the database and then to the nearest
    number: [days_until_stockout] is the floor of the quotient, in
    floating point, of the current stock by [avg], held at 0 from below,
    when [avg] is positive; it is 90 when [avg] is not positive and the
    stock is; it is 0 when the stock is 0; and it is never negative. *)
Theorem days_until_stockout_of_alert rt failures user companyId page limit today
    s alerts total pg a :
  getLowStockAlerts rt failures user companyId page limit today s
  = Ok alerts total pg →
  a ∈ alerts →
  let currentStock := a_current_stock a in
  let avg := avgDailySales_read s today (a_product_id a) (a_warehouse_id a) in
  (gt avg (of_Z 0) = true →
     a_days_until_stockout a
     = Math_max_0 (Math_floor (div (of_Z currentStock) avg)))
  ∧ (gt avg (of_Z 0) = false → 0 < currentStock →
       a_days_until_stockout a = of_Z 90)
  ∧ (currentStock = 0 → a_days_until_stockout a = of_Z 0)
  ∧ gt (of_Z 0) (a_days_until_stockout a) = false.
Proof.
  intros (_ & _ & results & Hq & ->)%getLowStockAlerts_Ok
    (r & -> & Hr)%list_elem_of_fmap.
  eapply lowStockQuery_subseteq in Hr; [|done].
  apply elem_of_remove_dups, list_elem_of_fmap in Hr
    as ([[[[p i] w] pc] sup] & -> & _).
  unfold avgDailySales_read. cbn [to_alert select_row a_current_stock
    a_product_id a_warehouse_id a_days_until_stockout r_current_stock
    r_product_id r_warehouse_id r_avg_daily_sales].
  rewrite avg_daily_sales_spec. apply daysUntilStockout_spec.
Qed.

Lemma days_until_stockout_of_alert_witness :
  a_days_until_stockout demo_alert
  = Math_max_0 (Math_floor (div (of_Z 20) (avgDailySales_read demo_store 100 1 1))).
Proof.
  apply (days_until_stockout_of_alert demo_runtime no_failures (mkUser 7 1) 1
    None None 100 demo_store
    (to_alert <$> ordered demo_store 1 (thirtyDaysAgo 100)) 3
    {| current_page := of_Z 1; total_pages := of_Z 1; total_items := 3;
       pg_limit := of_Z 100 |} demo_alert).
  - vm_compute. reflexivity.
  - by_compute.
  - vm_compute. reflexivity.
Defined.

(** Claim C4 as stated fails: with 35 units in stock and 7 units sold on
    6 days the average is 7/6 and the floor of 35 / (7/6) is 30; the
    database reports the average as 1.1667 and the handler answers 29. *)
Lemma stockout_is_not_the_exact_floor :
  ∃ a,
    getLowStockAlerts demo_runtime no_failures (mkUser 7 1) 1 None None 100
      velocity_store
    = Ok [a] 1 {| current_page := of_Z 1; total_pages := of_Z 1;
                  total_items := 1; pg_limit := of_Z 100 |}
    ∧ a_current_stock a = 35
    ∧ (avgDailySales velocity_store 100 (a_product_id a) (a_warehouse_id a)
       == 7 # 6)%Q
    ∧ Qfloor (inject_Z 35 / (7 # 6)) = 30
    ∧ a_days_until_stockout a = of_Z 29
    ∧ of_Z 29 ≠ of_Z 30.
Proof.
  eexists. split; [vm_compute; reflexivity|]. by vm_compute.
Qed.

(** ** Integers as numbers *)















(** ** Pagination *)




(** Page 2 of size 10 over 25 alerts: alerts 11 to 20, 25 in total, 3 pages. *)
Example page_2_of_25 :
  ∃ alerts,
    getLowStockAlerts demo_runtime no_failures (mkUser 7 1) 1
      (Some "2"%string) (Some "10"%string) 100 paged_store
    = Ok alerts 25 {| current_page := of_Z 2; total_pages := of_Z 3;
                      total_items := 25; pg_limit := of_Z 10 |}
    ∧ a_current_stock <$> alerts = seqZ 11 10.
Proof. eexists. split; vm_compute; reflexivity. Qed.


(** ** The supplier of an alert *)

Lemma linked_supplier_Some s p sp :
  linked_supplier s p = Some sp →
  sp ∈ suppliers s ∧ p_supplierId p = Some (s_id sp).
Proof.
  unfold linked_supplier. intros Hh.
  apply head_Some_elem_of, list_elem_of_filter in Hh. tauto.
Qed.

Lemma linked_supplier_None s p sp :
  linked_supplier s p = None → sp ∈ suppliers s →
  p_supplierId p ≠ Some (s_id sp).
Proof.
  unfold linked_supplier. intros Hh Hsp E.
  assert (Hin : sp ∈ filter (λ sp, p_supplierId p = Some (s_id sp)) (suppliers s))
    by by apply list_elem_of_filter.
  destruct (filter _ _); [by apply elem_of_nil in Hin|done].
Qed.

(** Claim C9, amended.  For every alert the handler returns, the supplier
    field carries the identity, name, contact email and lead time of the
    supplier the product is linked to whenever such a supplier row exists,
    active or not, and is null when the product is linked to no supplier
    row.  (Supplier ids are those of an [AUTO_INCREMENT] column, none
    of them 0.) *)
Theorem supplier_of_alert rt failures s user companyId page limit today
    alerts total pg a :
  keys_unique s → Forall (λ sp, s_id sp ≠ 0) (suppliers s) →
  getLowStockAlerts rt failures user companyId page limit today s
  = Ok alerts total pg →
  a ∈ alerts →
  ∃ p, p ∈ products s ∧ p_id p = a_product_id a
    ∧ (∀ sp, sp ∈ suppliers s → p_supplierId p = Some (s_id sp) →
         a_supplier a = Some (supplier_info sp))
    ∧ ((∀ sp, sp ∈ suppliers s → p_supplierId p ≠ Some (s_id sp)) →
         a_supplier a = None).
Proof.
  intros Hku Hpos (_ & _ & results & Hq & ->)%getLowStockAlerts_Ok
    (r & -> & Hr)%list_elem_of_fmap.
  eapply lowStockQuery_subseteq in Hr; [|done].
  rewrite candidates_Permutation in Hr by done.
  apply list_elem_of_fmap in Hr as ([[p i] w] & -> & Hq').
  apply elem_of_qualifying in Hq' as (Hp & _).
  exists p. split_and!; [done..| |].
  - intros sp Hsp E. unfold to_alert, supplier_of, candidate_row. simpl.
    destruct (linked_supplier s p) as [sp'|] eqn:El.
    + apply linked_supplier_Some in El as [Hsp' E'].
      assert (sp = sp') as <-.
      { apply (NoDup_fmap_elem_inj s_id (suppliers s)); [apply Hku|done..|].
        congruence. }
      rewrite Forall_forall in Hpos.
      simpl. by rewrite decide_False by by apply Hpos.
    + by eapply linked_supplier_None in El.
  - intros Hnone. unfold to_alert, supplier_of, candidate_row. simpl.
    destruct (linked_supplier s p) as [sp'|] eqn:El; [|done].
    apply linked_supplier_Some in El as [Hsp' E']. by apply Hnone in E'.
Qed.

Lemma supplier_of_alert_witness :
  a_supplier demo_alert
  = Some (supplier_info (mkSupplier 1 "Widget Supplier Corp"
            (Some "orders@widgetsupplier.com") (Some 7) (Some true))).
Proof.
  destruct (supplier_of_alert demo_runtime no_failures demo_store (mkUser 7 1)
    1 None None 100
    (to_alert <$> ordered demo_store 1 (thirtyDaysAgo 100)) 3
    {| current_page := of_Z 1; total_pages := of_Z 1; total_items := 3;
       pg_limit := of_Z 100 |} demo_alert) as (p & Hp & Hid & Hsome & _).
  - by_compute.
  - by_compute.
  - vm_compute. reflexivity.
  - by_compute.
  - done.
Defined.

(** Claim C9 as stated fails: in [demo_store] product 3 is linked to
    supplier 2, which is not active, and the alert the handler returns for
    product 3 carries that supplier all the same. *)
Lemma inactive_supplier_is_reported :
  let sp := mkSupplier 2 "Parts & Components Inc"
              (Some "sales@partscomponents.com") (Some 7) (Some false) in
  let p := mkProduct 3 1 (Some 2) (Some 2) "Premium Connector" "CON-PREM-50"
             None (Q2Qc (4999 # 100)) None None None (Some 15) (Some true) in
  sp ∈ suppliers demo_store
  ∧ s_isActive sp ≠ Some true
  ∧ p ∈ products demo_store
  ∧ p_supplierId p = Some (s_id sp)
  ∧ ∃ alerts total pg a,
      getLowStockAlerts demo_runtime no_failures (mkUser 7 1) 1 None None 100
        demo_store
      = Ok alerts total pg
      ∧ a ∈ alerts ∧ a_product_id a = 3
      ∧ a_supplier a = Some (supplier_info sp).
Proof.
  split_and!; [by_compute|done|by_compute|done|].
  do 3 eexists.
  exists {| a_product_id := 3; a_product_name := "Premium Connector";
            a_sku := "CON-PREM-50"; a_warehouse_id := 1;
            a_warehouse_name := "Main Warehouse"; a_current_stock := 8;
            a_threshold := 15; a_days_until_stockout := of_Z 2;
            a_supplier := Some {| si_id := 2;
              si_name := Some "Parts & Components Inc";
              si_contact_email := Some "sales@partscomponents.com";
              si_lead_time_days := Some 7 |} |}.
  split_and!; [vm_compute; reflexivity|by_compute|done..].
Qed.

(** ** The category rollup *)

Global Instance by_count_desc_total : Total by_count_desc.
Proof. intros r1 r2. unfold by_count_desc. lia. Qed.

Lemma SUM_CASE_length {A} (c : A → Prop) `{∀ x, Decision (c x)} (g : list A) :
  SUM_CASE c g = Z.of_nat (length (filter c g)).
Proof.
  unfold SUM_CASE, SUM. induction g as [|x g IH]; [done|].
  csimpl. rewrite filter_cons, IH. destruct (decide (c x)); simpl; lia.
Qed.

Lemma length_filter_impl {A} (P Q : A → Prop) `{∀ x, Decision (P x)}
    `{∀ x, Decision (Q x)} (l : list A) :
  (∀ x, P x → Q x) → (length (filter P l) ≤ length (filter Q l))%nat.
Proof.
  intros HPQ. induction l as [|x l IH]; [done|].
  rewrite !filter_cons. destruct (decide (P x)), (decide (Q x)); simpl;
    [lia|by destruct n; auto|lia|lia].
Qed.

Section rollup.
Context (s : Store) (Hku : keys_unique s) (companyId today : Z).

Local Abbreviation rows :=
  (filter (where_clause s companyId (thirtyDaysAgo today)) (from_joins s)).

Lemma group_Permutation k :
  filter (λ j, group_key j = k) rows
  ≡ₚ with_category s
       <$> filter (λ t, category_of s t = k) (qualifying s companyId today).
Proof.
  rewrite where_rows_Permutation by done.
  by rewrite filter_fmap_comm.
Qed.

Lemma rollup_aggregate k :
  filter (λ t, category_of s t = k) (qualifying s companyId today) ≠ [] →
  rollup s companyId today k
    (to_entry (aggregate k (filter (λ j, group_key j = k) rows)))
  ∧ out_of_stock (to_entry (aggregate k (filter (λ j, group_key j = k) rows)))
    ≤ critical_alerts
        (to_entry (aggregate k (filter (λ j, group_key j = k) rows))).
Proof.
  intros Hne. unfold rollup, to_entry, aggregate, mean_printed.
  cbn [category total_alerts out_of_stock critical_alerts average_stock_level
       category_name alert_count out_of_stock_count critical_count
       avg_stock_level].
  cbv zeta. rewrite !SUM_CASE_length.
  set (g := filter (λ t, category_of s t = k) (qualifying s companyId today))
    in *.
  assert (Hs : joined_stock <$> filter (λ j, group_key j = k) rows
               ≡ₚ (λ t, available_stock t.1.2) <$> g).
  { rewrite (group_Permutation k), <- list_fmap_compose. by fold g. }
  assert (Hg : filter (λ j, group_key j = k) rows ≡ₚ with_category s <$> g)
    by apply group_Permutation.
  split_and!.
  - done.
  - by rewrite Hg, length_fmap.
  - by rewrite Hg, filter_fmap_comm, length_fmap.
  - by rewrite Hg, filter_fmap_comm, length_fmap.
  - rewrite AVG_nonempty.
    + by rewrite (SUM_Permutation _ _ Hs), Hs.
    + intros E. rewrite E in Hs. symmetry in Hs.
      apply Permutation_nil_r in Hs. by apply fmap_nil_inv in Hs.
  - apply inj_le, length_filter_impl. unfold joined_stock. lia.
Qed.
End rollup.

Lemma getLowStockSummary_Ok failures user companyId today s summary :
  getLowStockSummary failures user companyId today s = SummaryOk summary →
  u_companyId user = companyId
  ∧ summary = to_entry <$> summaryQuery s companyId (thirtyDaysAgo today).
Proof.
  unfold getLowStockSummary, query. case_decide as Hu; [done|].
  destruct (failures summary_statement); [done|]. intros [= <-].
  split; [by destruct (decide (u_companyId user = companyId))|done].
Qed.

(** Claim C7, amended.  For a caller of the company, the summary query
    either fails, and the answer is the internal server error, or the
    summary has one entry per category name met among the qualifying
    candidates, the candidates without category under "Uncategorized":
    every entry reports, for the candidates of its category, their number,
    the number with available stock exactly 0, the number with available
    stock at most 5 (never less than the former), and their mean available
    stock as the handler prints it: the quotient rounded by the database
    to four decimals, read as a double and printed with two decimals;
    every candidate is counted in the entry of its category; and the
    entries are in descending order of their number of candidates. *)
Theorem low_stock_summary_rollup failures s user companyId today :
  keys_unique s → u_companyId user = companyId →
  ∃ summary,
    getLowStockSummary failures user companyId today s
    = match failures summary_statement with
      | Some _ => SummaryInternalServerError
      | None => SummaryOk summary
      end
    ∧ (∀ e, e ∈ summary →
         ∃ k, (∃ t, t ∈ qualifying s companyId today ∧ category_of s t = k)
              ∧ rollup s companyId today k e
              ∧ out_of_stock e ≤ critical_alerts e)
    ∧ (∀ t, t ∈ qualifying s companyId today →
         ∃ e, e ∈ summary ∧ rollup s companyId today (category_of s t) e)
    ∧ length summary
      = length (remove_dups (category_of s <$> qualifying s companyId today))
    ∧ Sorted (λ e1 e2, total_alerts e2 ≤ total_alerts e1) summary.
Proof.
  intros Hku Hu. eexists. split.
  { unfold getLowStockSummary, query. rewrite decide_False by by intros [].
    destruct (failures summary_statement); reflexivity. }
  unfold summaryQuery.
  set (rows := filter (where_clause s companyId (thirtyDaysAgo today))
                 (from_joins s)).
  assert (Hkeys : ∀ k, k ∈ remove_dups (group_key <$> rows)
            ↔ ∃ t, t ∈ qualifying s companyId today ∧ category_of s t = k).
  { intros k. rewrite elem_of_remove_dups, list_elem_of_fmap. split.
    - intros (j & -> & (t & -> & Ht)%elem_of_where_rows); [eauto|done].
    - intros (t & Ht & <-). exists (with_category s t). split; [done|].
      apply elem_of_where_rows; eauto. }
  assert (Hne : ∀ t, t ∈ qualifying s companyId today →
            filter (λ t', category_of s t' = category_of s t)
              (qualifying s companyId today) ≠ []).
  { intros t Ht E.
    assert (Hin : t ∈ filter (λ t', category_of s t' = category_of s t)
                        (qualifying s companyId today))
      by by apply list_elem_of_filter.
    rewrite E in Hin. by apply elem_of_nil in Hin. }
  split_and!.
  - intros e (r & -> & Hr)%list_elem_of_fmap.
    rewrite merge_sort_Permutation in Hr.
    apply list_elem_of_fmap in Hr as (k & -> & Hk).
    exists k. pose proof Hk as (t & Ht & <-)%Hkeys.
    split; [eauto|]. apply rollup_aggregate; auto.
  - intros t Ht.
    exists (to_entry (aggregate (category_of s t)
              (filter (λ j, group_key j = category_of s t) rows))).
    split; [|apply rollup_aggregate; auto].
    apply list_elem_of_fmap_2. rewrite merge_sort_Permutation.
    apply list_elem_of_fmap. exists (category_of s t). split; [done|].
    apply Hkeys. eauto.
  - rewrite length_fmap, merge_sort_Permutation, length_fmap.
    apply Permutation_length, NoDup_Permutation; [apply NoDup_remove_dups..|].
    intros k. rewrite Hkeys, elem_of_remove_dups, list_elem_of_fmap.
    split; [intros (t & ? & <-)|intros (t & -> & ?)]; eauto.
  - apply (Sorted_fmap _ by_count_desc); [done|].
    apply (Sorted_merge_sort by_count_desc).
Qed.

Lemma low_stock_summary_rollup_witness :
  ∃ summary,
    getLowStockSummary no_failures (mkUser 7 1) 1 100 summary_store
    = SummaryOk summary
    ∧ length summary
      = length (remove_dups (category_of summary_store
                               <$> qualifying summary_store 1 100)).
Proof.
  destruct (low_stock_summary_rollup no_failures summary_store (mkUser 7 1)
              1 100)
    as (summary & H1 & _ & _ & H4 & _); [by_compute|done|].
  by exists summary.
Defined.

(** Stocks 0, 3 and 8 in "Electronics": one out of stock, two critical,
    an average printed as 3.67; the product without category is reported
    under "Uncategorized", after the larger group. *)
Example summary_0_3_8 :
  getLowStockSummary no_failures (mkUser 7 1) 1 100 summary_store
  = SummaryOk
      [ {| category := "Electronics"; total_alerts := 3; out_of_stock := 1;
           critical_alerts := 2;
           average_stock_level := fixed2 false 367 |};
        {| category := "Uncategorized"; total_alerts := 1; out_of_stock := 0;
           critical_alerts := 0;
           average_stock_level := fixed2 false 700 |} ].
Proof. by_compute. Qed.

(** A failing summary query is answered with the internal server error. *)
Example summary_query_fails :
  getLowStockSummary (λ _, Some database_error) (mkUser 7 1) 1 100
    summary_store
  = SummaryInternalServerError.
Proof. by_compute. Qed.

(** Claim C7 as stated fails: in [rounding_store] fifty-one units are
    spread over a hundred and one products, a mean of 0.50495..., which
    rounded to two decimal places is 0.50; the database hands out 0.5050
    and the handler prints 0.51. *)
Lemma printed_mean_is_not_the_rounded_mean :
  ∃ e,
    getLowStockSummary no_failures (mkUser 7 1) 1 100 rounding_store
    = SummaryOk [e]
    ∧ (mean ((λ t, available_stock t.1.2) <$> qualifying rounding_store 1 100)
       == 51 # 101)%Q
    ∧ Fixed2_value (average_stock_level e) = Some (51 # 100)%Q
    ∧ ¬ rounded2 (51 # 101) (51 # 100).
Proof.
  eexists. split; [vm_compute; reflexivity|].
  split; [by vm_compute|]. split; [done|].
  intros [_ Hnear]. revert Hnear. vm_compute. intros H. by apply H.
Qed.

End AlertsProofs.
Module ProductsProofs.
Import Products Examples.

(** ** The storage layer *)

Lemma next_id_above ids x : x ∈ ids → x < next_id ids.
Proof.
  unfold next_id. induction ids as [|y ids IH]; [by intros ?%elem_of_nil|].
  intros [->|Hx]%elem_of_cons; simpl; [lia|]. apply IH in Hx. lia.
Qed.

Lemma next_id_fresh ids : next_id ids ∉ ids.
Proof. intros H%next_id_above. lia. Qed.

Lemma head_filter_None {A} (P : A → Prop) `{∀ x, Decision (P x)} l :
  (∀ x, x ∈ l → ¬ P x) → head (filter P l) = None.
Proof.
  intros Hno. destruct (filter P l) as [|x k] eqn:E; [done|].
  assert (Hx : x ∈ filter P l) by (rewrite E; by left).
  apply list_elem_of_filter in Hx as [? ?]. by destruct (Hno x).
Qed.

Lemma head_filter_is_Some {A} (P : A → Prop) `{∀ x, Decision (P x)} l x :
  x ∈ l → P x → is_Some (head (filter P l)).
Proof.
  intros Hx HP.
  assert (Hin : x ∈ filter P l) by by apply list_elem_of_filter.
  destruct (filter P l); [by apply elem_of_nil in Hin|by eexists].
Qed.

(** ** The handler *)

Section handler.
Context (faults : Faults) (now : Z) (user : User).

(** Whatever the lookups answer, they leave the view as it is. *)
Lemma checks_reads value s r s' :
  checks faults user value s = inr (r, s') → s' = s.
Proof.
  unfold checks, await, query, mbind, Tx_bind, tx_bind, Warehouse_findOne,
    Product_findOne, tx_gets, tx_ret, tx_throw.
  repeat (case_match; simplify_eq; try done); by intros [= _ <-].
Qed.

(** The writes run to their end only with the response 201. *)
Lemma writes_Continue value s r s' :
  writes faults now user value s = inr (Continue r, s') → status r = 201.
Proof.
  unfold writes, await, query, mbind, Tx_bind, tx_bind, tx_ret, tx_throw.
  repeat (case_match; simplify_eq; try done); try by intros [= <- _].
Qed.
End handler.

(** Claim C2.  Whenever a request to create a product is answered with
    anything but 201 (a validation failure, an unknown warehouse, a SKU or
    an inventory record that exists, a rejected query or a rejected
    commit), the database after the request is the database before it. *)
Theorem failed_createProduct_persists_nothing faults now user body seen db r db' :
  createProduct_at faults now user body seen db = (r, db') →
  status r ≠ 201 → db' = db.
Proof.
  unfold createProduct_at.
  repeat case_match; intros [= <- <-] Hstatus; try done.
  destruct Hstatus. by eapply writes_Continue.
Qed.

Lemma failed_createProduct_persists_nothing_witness :
  (createProduct_at no_faults 5 (mkUser 7 2) gadget sample_store sample_store).2
  = sample_store.
Proof.
  apply (failed_createProduct_persists_nothing no_faults 5 (mkUser 7 2) gadget
           sample_store sample_store InvalidWarehouse); [by_compute|done].
Defined.

Section provisioning.
Context (faults : Faults) (now : Z) (user : User) (value : Value).
Context (Hfaults : ∀ q, faults q = None).

Lemma checks_pass db warehouse :
  warehouse ∈ warehouses db →
  w_id warehouse = v_warehouseId value →
  w_companyId warehouse = u_companyId user →
  w_isActive warehouse = Some true →
  v_sku value ∉ p_sku <$> products db →
  checks faults user value db = inr (Continue tt, db).
Proof.
  intros Hw E1 E2 E3 Hsku.
  unfold checks, await, query, mbind, Tx_bind, tx_bind, Warehouse_findOne,
    Product_findOne, tx_gets, tx_ret. rewrite !Hfaults.
  edestruct (head_filter_is_Some
    (λ w, w_id w = v_warehouseId value ∧ w_companyId w = u_companyId user
          ∧ w_isActive w = Some true) (warehouses db)) as [w' ->]; [done..|].
  rewrite head_filter_None; [done|].
  intros p Hp E. apply Hsku, list_elem_of_fmap. eauto.
Qed.

Lemma writes_pass db :
  v_sku value ∉ p_sku <$> products db →
  u_companyId user ∈ c_id <$> companies db →
  references pc_id (product_categories db) (v_categoryId value) →
  references s_id (suppliers db) (v_supplierId value) →
  v_warehouseId value ∈ w_id <$> warehouses db →
  inventory_references_products db →
  let product :=
    {| p_id := next_id (p_id <$> products db);
       p_companyId := u_companyId user;
       p_categoryId := v_categoryId value;
       p_supplierId := v_supplierId value;
       p_name := v_name value;
       p_sku := v_sku value;
       p_description := v_description value;
       p_price := v_price value;
       p_cost := v_cost value;
       p_weight := v_weight value;
       p_dimensions := v_dimensions value;
       p_lowStockThreshold := Some (default 10 (v_lowStockThreshold value));
       p_isActive := Some true |} in
  let record :=
    {| i_id := next_id (i_id <$> inventory db);
       i_productId := p_id product;
       i_warehouseId := v_warehouseId value;
       i_quantity := v_initialQuantity value;
       i_reservedQuantity := 0;
       i_lastUpdated := now |} in
  let movement :=
    {| m_id := next_id (m_id <$> inventory_movements db);
       m_inventoryId := i_id record;
       m_movementType := mv_in;
       m_quantity := v_initialQuantity value;
       m_previousQuantity := 0;
       m_newQuantity := v_initialQuantity value;
       m_referenceId := Some (pretty (p_id product));
       m_referenceType := Some "initial_stock"%string;
       m_notes := Some "Initial stock entry for new product"%string;
       m_userId := Some (u_id user) |} in
  writes faults now user value db
  = inr (Continue (Created (p_id product) (v_name value) (v_sku value)
                     (v_price value) (v_warehouseId value)
                     (v_initialQuantity value)),
         mkStore (companies db) (warehouses db) (suppliers db)
           (product_categories db) (products db ++ [product])
           (inventory db ++ [record])
           (inventory_movements db ++ [movement]) (sales_data db)).
Proof.
  intros Hsku Hc Hpc Hsp Hw Hrefs product record movement.
  assert (Hfresh : ∀ i, i ∈ inventory db → i_productId i ≠ p_id product).
  { intros i Hi E.
    apply (next_id_fresh (p_id <$> products db)).
    unfold inventory_references_products in Hrefs.
    rewrite Forall_forall in Hrefs.
    change (p_id product) with (next_id (p_id <$> products db)) in E.
    rewrite <- E. by apply Hrefs. }
  unfold writes, await, query, mbind, Tx_bind, tx_bind, tx_ret.
  rewrite !Hfaults. unfold Product_create.
  rewrite decide_False, decide_True by done.
  fold product. unfold Inventory_findOne, tx_gets. cbn [inventory].
  rewrite head_filter_None by (intros i Hi [E _]; by apply (Hfresh i)).
  unfold Inventory_create. cbn [inventory products warehouses].
  rewrite decide_False.
  2:{ intros (i & [= E _] & Hi)%list_elem_of_fmap. by apply (Hfresh i). }
  rewrite decide_True.
  2:{ rewrite fmap_app, elem_of_app. split; [right; by left|done]. }
  fold record. unfold InventoryMovement_create.
  cbn [inventory inventory_movements].
  rewrite decide_True by (rewrite fmap_app, elem_of_app; right; by left).
  done.
Qed.
End provisioning.

(** Claim C1.  When the body passes validation, the warehouse is an active
    warehouse of the caller's company, the SKU is not in use, no query is
    rejected by the storage layer and every reference of the new rows
    resolves, the request is answered with 201 and adds exactly one
    product, of the caller's company; exactly one inventory record, for
    that product and the warehouse, with the initial quantity and nothing
    reserved; and exactly one movement of that record, of type [in], from
    0 to the initial quantity, with reference type "initial_stock" and the
    caller's user id. *)
Theorem createProduct_persists faults now user body db value warehouse :
  validate defaults body = inr value →
  warehouse ∈ warehouses db →
  w_id warehouse = v_warehouseId value →
  w_companyId warehouse = u_companyId user →
  w_isActive warehouse = Some true →
  v_sku value ∉ p_sku <$> products db →
  (∀ q, faults q = None) →
  u_companyId user ∈ c_id <$> companies db →
  references pc_id (product_categories db) (v_categoryId value) →
  references s_id (suppliers db) (v_supplierId value) →
  inventory_references_products db →
  ∃ product record movement db',
    createProduct faults now user body db
    = (Created (p_id product) (p_name product) (p_sku product) (p_price product)
         (v_warehouseId value) (v_initialQuantity value), db')
    ∧ products db' = products db ++ [product]
    ∧ inventory db' = inventory db ++ [record]
    ∧ inventory_movements db' = inventory_movements db ++ [movement]
    ∧ (p_id product ∉ p_id <$> products db)
    ∧ p_companyId product = u_companyId user
    ∧ p_sku product = v_sku value
    ∧ i_productId record = p_id product
    ∧ i_warehouseId record = v_warehouseId value
    ∧ i_quantity record = v_initialQuantity value
    ∧ i_reservedQuantity record = 0
    ∧ m_inventoryId movement = i_id record
    ∧ m_movementType movement = mv_in
    ∧ m_previousQuantity movement = 0
    ∧ m_newQuantity movement = v_initialQuantity value
    ∧ m_referenceType movement = Some "initial_stock"%string
    ∧ m_userId movement = Some (u_id user).
Proof.
  intros Hv Hw E1 E2 E3 Hsku Hfaults Hc Hpc Hsp Hrefs.
  assert (Hwid : v_warehouseId value ∈ w_id <$> warehouses db)
    by (rewrite <- E1; by apply list_elem_of_fmap_2).
  pose proof (writes_pass faults now user value Hfaults db
                Hsku Hc Hpc Hsp Hwid Hrefs) as Hwrites.
  cbv zeta in Hwrites.
  match type of Hwrites with
  | _ = inr (Continue (Created (p_id ?p) _ _ _ _ _),
             mkStore _ _ _ _ _ (_ ++ [?r]) (_ ++ [?m]) _) =>
      exists p, r, m
  end.
  eexists. split.
  - unfold createProduct, createProduct_at. rewrite Hv.
    erewrite checks_pass by done.
    rewrite Hwrites, Hfaults. reflexivity.
  - simpl. split_and!; try done. apply next_id_fresh.
Qed.

Lemma createProduct_persists_witness :
  ∃ product record movement db',
    createProduct no_faults 5 (mkUser 7 1) gadget sample_store
    = (Created (p_id product) (p_name product) (p_sku product) (p_price product)
         2 40, db')
    ∧ products db' = products sample_store ++ [product]
    ∧ inventory db' = inventory sample_store ++ [record]
    ∧ inventory_movements db'
      = inventory_movements sample_store ++ [movement].
Proof.
  destruct (createProduct_persists no_faults 5 (mkUser 7 1) gadget sample_store
              (value_of gadget) (mkWarehouse 2 1 "Secondary Warehouse" (Some true)))
    as (product & record & movement & db' & H1 & H2 & H3 & H4 & _);
    [vm_compute; reflexivity|by_compute|done..|by_compute|done|by_compute
    |by_compute|done|by_compute|].
  exists product, record, movement, db'.
  split_and!; [exact H1|exact H2|exact H3|exact H4].
Defined.

(** ** Conflicts found by the storage layer *)

(** Claim C5.  A request that passed its own lookups, and whose insert of
    the product then meets the same SKU, committed in between by another
    request, or is rejected by the storage layer as a duplicate, is
    answered with 409, not 500, and leaves the database as it found it. *)
Theorem race_loser_gets_conflict faults now user body seen db value :
  validate defaults body = inr value →
  checks faults user value seen = inr (Continue tt, seen) →
  (faults q_Product_create = None ∧ v_sku value ∈ p_sku <$> products db)
  ∨ faults q_Product_create = Some SequelizeUniqueConstraintError →
  ∃ r, createProduct_at faults now user body seen db = (r, db)
       ∧ r = DuplicateEntry ∧ status r = 409.
Proof.
  intros Hv Hchecks Hrace. exists DuplicateEntry. split; [|done].
  unfold createProduct_at. rewrite Hv, Hchecks.
  unfold writes, await, query, mbind, Tx_bind, tx_bind, tx_throw.
  destruct Hrace as [[-> Hsku]| ->]; [|done].
  unfold Product_create. by rewrite decide_True.
Qed.

Lemma race_loser_gets_conflict_witness :
  status (createProduct no_faults 5 (mkUser 7 1) gadget sample_store).1 = 201
  ∧ ∃ r, createProduct_at no_faults 6 (mkUser 8 1) gadget sample_store after_winner
         = (r, after_winner)
         ∧ r = DuplicateEntry ∧ status r = 409.
Proof.
  split; [by_compute|].
  apply (race_loser_gets_conflict no_faults 6 (mkUser 8 1) gadget sample_store
           after_winner (value_of gadget)).
  - vm_compute. reflexivity.
  - vm_compute. reflexivity.
  - left. split; [done|by_compute].
Defined.

(** A conflict reported at commit is answered in the same way. *)
Lemma commit_conflict faults now user body db r tx :
  validate defaults body = inr (value_of body) →
  checks faults user (value_of body) db = inr (Continue tt, db) →
  writes faults now user (value_of body) db = inr (Continue r, tx) →
  faults q_commit = Some SequelizeUniqueConstraintError →
  createProduct faults now user body db = (DuplicateEntry, db).
Proof.
  intros Hv Hc Hw Hf. unfold createProduct, createProduct_at.
  by rewrite Hv, Hc, Hw, Hf.
Qed.

(** ** Validation *)

(** Claim C8 as stated fails: the body [malformed] violates the schema on
    three fields (name, sku and price), and the response carries the
    message for the first of them only. *)
Lemma validation_reports_first_violation_only :
  violations malformed
  = [ mkDetail "name" string_empty; mkDetail "sku" string_empty;
      mkDetail "price" number_positive ]
  ∧ createProduct no_faults 5 (mkUser 7 1) malformed sample_store
    = (ValidationFailed [mkDetail "name" string_empty], sample_store).
Proof. split; by_compute. Qed.

(** Claim C8, amended.  For a body that violates the schema, on one field
    or on several, the response is a validation failure with exactly one
    message, the one of the first violation in the order of the schema:
    under Joi's default preferences validation stops there. *)
Theorem validation_reports_first_violation faults now user body seen db first rest :
  violations body = first :: rest →
  createProduct_at faults now user body seen db
  = (ValidationFailed [first], db).
Proof.
  intros Hv. unfold createProduct_at, validate. by rewrite Hv.
Qed.

Lemma validation_reports_first_violation_witness :
  createProduct_at no_faults 5 (mkUser 7 1) malformed sample_store sample_store
  = (ValidationFailed [mkDetail "name" string_empty], sample_store).
Proof.
  apply (validation_reports_first_violation no_faults 5 (mkUser 7 1) malformed
           sample_store sample_store (mkDetail "name" string_empty)
           [mkDetail "sku" string_empty; mkDetail "price" number_positive]).
  by_compute.
Defined.

Lemma catch_status error : status (catch error) ≠ 201.
Proof. by destruct error. Qed.

Lemma checks_Rollback faults user value s r s' :
  checks faults user value s = inr (RollbackAndReturn r, s') →
  r = InvalidWarehouse ∨ r = SkuAlreadyExists (v_sku value).
Proof.
  unfold checks, await, query, mbind, Tx_bind, tx_bind, tx_ret, tx_throw,
    Warehouse_findOne, Product_findOne, tx_gets.
  repeat case_match; intros [= <-]; auto.
Qed.

Lemma writes_Rollback faults now user value s r s' :
  writes faults now user value s = inr (RollbackAndReturn r, s') →
  r = InventoryAlreadyExists.
Proof.
  unfold writes, await, query, mbind, Tx_bind, tx_bind, tx_ret, tx_throw.
  repeat (case_match; simplify_eq; try done); by intros [= <-].
Qed.

(** Whatever the body, a validation failure carries exactly one message. *)
Lemma ValidationFailed_one_detail faults now user body seen db details db' :
  createProduct_at faults now user body seen db = (ValidationFailed details, db') →
  length details = 1%nat.
Proof.
  unfold createProduct_at, validate. simpl.
  destruct (violations body) as [|first rest]; [|by intros [= <- _]].
  destruct (checks _ _ _ _) as [e|[[r|[]] s1]] eqn:Hc.
  - by destruct e.
  - apply checks_Rollback in Hc as [-> | ->]; by intros [= ].
  - destruct (writes _ _ _ _ _) as [e|[[r|r] s2]] eqn:Hw.
    + by destruct e.
    + apply writes_Rollback in Hw as ->. by intros [= ].
    + apply writes_Continue in Hw.
      destruct (faults q_commit) as [e|]; [by destruct e|].
      intros [= -> _]. done.
Qed.

(** ** The threshold of a created product *)

Lemma writes_Continue_product faults now user value s r s' :
  writes faults now user value s = inr (Continue r, s') →
  ∃ product,
    products s' = products s ++ [product]
    ∧ p_lowStockThreshold product
      = Some (default 10 (v_lowStockThreshold value)).
Proof.
  unfold writes, await, query, mbind, Tx_bind, tx_bind, tx_ret, tx_throw,
    Product_create, Inventory_findOne, Inventory_create,
    InventoryMovement_create, tx_gets.
  repeat (case_match; simplify_eq; try done).
  intros [= _ <-]. eexists. split; reflexivity.
Qed.

Lemma validate_value_of prefs body value :
  validate prefs body = inr value → value = value_of body.
Proof. unfold validate. destruct (violations body); by intros [= <-]. Qed.

Lemma validate_lowStockThreshold body value :
  validate defaults body = inr value →
  ∃ t, v_lowStockThreshold value = Some t
       ∧ (b_lowStockThreshold body = NUndefined → t = 10)
       ∧ (∀ v, b_lowStockThreshold body = NNumber v → t = Qfloor v).
Proof.
  unfold validate. destruct (violations body) eqn:Hv; intros [= <-].
  unfold violations in Hv.
  repeat (apply app_eq_nil in Hv as [? Hv]).
  unfold value_of. cbn [v_lowStockThreshold].
  destruct (b_lowStockThreshold body) as [|v|]; [| |done].
  - exists 10. by split_and!.
  - unfold validate_number. cbn [precision_of lowStockThreshold_schema nb_rules].
    simpl. destruct (decide _); eexists; (split_and!; [done..|by intros ? [= ->]]).
Qed.

(** Claim C10.  Every product a request creates is stored with a
    threshold: 10 when the body has none, else the one of the body; so
    the threshold of the alert queries, [COALESCE] of the product's, the
    category's and 10, is the product's own whatever the category. *)
Theorem created_product_uses_own_threshold faults now user body seen db r db' :
  createProduct_at faults now user body seen db = (r, db') →
  status r = 201 →
  ∃ product t,
    products db' = products db ++ [product]
    ∧ p_lowStockThreshold product = Some t
    ∧ (b_lowStockThreshold body = NUndefined → t = 10)
    ∧ (∀ v, b_lowStockThreshold body = NNumber v → t = Qfloor v)
    ∧ (∀ category_threshold,
         COALESCE_threshold (p_lowStockThreshold product) category_threshold = t)
    ∧ (∀ s, Alerts.effective_threshold s product = t).
Proof.
  unfold createProduct_at.
  destruct (validate defaults body) as [details|value] eqn:Hv;
    [by intros [= <- _]|].
  destruct (validate_lowStockThreshold _ _ Hv) as (t & Ht & Hdef & Hnum).
  destruct (checks _ _ _ _) as [e|[[r1|[]] s1]] eqn:Hc.
  - intros [= <- _] Hs. by destruct (catch_status e).
  - apply checks_Rollback in Hc as [-> | ->]; by intros [= <- _].
  - destruct (writes _ _ _ _ _) as [e|[[r2|r2] s2]] eqn:Hw.
    + intros [= <- _] Hs. by destruct (catch_status e).
    + apply writes_Rollback in Hw as ->. by intros [= <- _].
    + destruct (faults q_commit) as [e|];
        [intros [= <- _] Hs; by destruct (catch_status e)|].
      intros [= <- <-] _.
      apply writes_Continue_product in Hw as (product & Hp & Hthr).
      rewrite Ht in Hthr. simpl in Hthr.
      exists product, t. split_and!; [done..| |].
      * intros c. by rewrite Hthr.
      * intros s. unfold Alerts.effective_threshold. by rewrite Hthr.
Qed.

Lemma created_product_uses_own_threshold_witness :
  ∃ product t,
    products after_winner = products sample_store ++ [product]
    ∧ p_lowStockThreshold product = Some t
    ∧ t = 10.
Proof.
  destruct (created_product_uses_own_threshold no_faults 5 (mkUser 7 1) gadget
              sample_store sample_store
              (createProduct no_faults 5 (mkUser 7 1) gadget sample_store).1
              after_winner)
    as (product & t & H1 & H2 & H3 & _); [by_compute|by_compute|].
  exists product, t. split_and!; [done..|]. by apply H3.
Defined.

End ProductsProofs.

(** * The middleware, the routes and the integrity of the database *)

Module AuthProofs.
Import Auth Examples Scenarios.

(** ** The middleware *)

Lemma substring_all (s : string) : String.substring 0 (String.length s) s = s.
Proof. induction s as [|a s IH]; [done|]. simpl. by rewrite IH. Qed.

Lemma substring_split (n : nat) (s : string) :
  s = (String.substring 0 n s
       +:+ String.substring n (String.length s - n) s)%string.
Proof.
  revert s. induction n as [|n IH]; intros s.
  - rewrite Nat.sub_0_r, substring_all. by destruct s.
  - destruct s as [|a s]; [done|]. simpl.
    change (String a s
            = String a (String.substring 0 n s
                        +:+ String.substring n (String.length s - n) s))%string.
    f_equal. apply IH.
Qed.

Lemma prefix_app (s t : string) : String.prefix s (s +:+ t) = true.
Proof.
  induction s as [|a s IH]; [by destruct t|].
  change (String a s +:+ t)%string with (String a (s +:+ t)).
  cbn [String.prefix]. by destruct (Ascii.ascii_dec a a).
Qed.

Lemma substring_app (s t : string) :
  String.substring (String.length s)
    (String.length (s +:+ t) - String.length s) (s +:+ t) = t.
Proof.
  induction s as [|a s IH].
  - change (""%string +:+ t)%string with t. simpl.
    by rewrite Nat.sub_0_r, substring_all.
  - change (String a s +:+ t)%string with (String a (s +:+ t)). by simpl.
Qed.

(** A header that starts with the scheme is the scheme followed by the
    token the middleware cuts out. *)
Lemma prefix_Bearer (h : string) :
  String.prefix "Bearer " h = true →
  h = ("Bearer " +:+ String.substring 7 (String.length h - 7) h)%string.
Proof.
  intros Hp%String.prefix_correct. simpl in Hp. rewrite <- Hp at 1. apply (substring_split 7).
Qed.

Lemma Company_findOne_Some id db company :
  Company_findOne id db = Some company →
  company ∈ companies db ∧ c_id company = id ∧ c_isActive company = Some true.
Proof.
  unfold Company_findOne. intros H%head_Some_elem_of.
  apply list_elem_of_filter in H. tauto.
Qed.

Section middleware.
Context (verify : string → JwtError + Decoded) (lookup_fails : bool).

Lemma auth_Next_inv authHeader db user :
  auth verify lookup_fails authHeader db = Next user →
  ∃ token decoded company,
    authHeader = Some ("Bearer " +:+ token)%string
    ∧ token ≠ ""%string
    ∧ verify token = inr decoded
    ∧ lookup_fails = false
    ∧ Company_findOne (d_companyId decoded) db = Some company
    ∧ user = req_user decoded company.
Proof.
  unfold auth. destruct authHeader as [h|]; [|done].
  case_decide; [done|].
  destruct (String.prefix "Bearer " h) eqn:Hp; [|done]. simpl.
  case_decide as Ht; [done|].
  destruct (verify _) as [[]|decoded] eqn:Hv; try done.
  destruct lookup_fails; [done|].
  destruct (Company_findOne _ _) as [company|] eqn:Hc; [|done].
  intros [= <-]. eexists _, decoded, company.
  split_and!; [|done..]. f_equal. by apply prefix_Bearer.
Qed.

(** Property X1.  Whenever [auth] calls [next()], the request carried a header of
    the form [Bearer <token>] with a non-empty token that [jwt.verify]
    accepts, and [req.user.company] is a row of [companies] that is active
    and whose id is the company id of the token, which is
    [req.user.companyId]. *)
Theorem auth_admits_active_company authHeader db user :
  auth verify lookup_fails authHeader db = Next user →
  ru_company user ∈ companies db
  ∧ c_id (ru_company user) = ru_companyId user
  ∧ c_isActive (ru_company user) = Some true
  ∧ ∃ token decoded,
      authHeader = Some ("Bearer " +:+ token)%string
      ∧ token ≠ ""%string
      ∧ verify token = inr decoded
      ∧ ru_companyId user = d_companyId decoded.
Proof.
  intros (token & decoded & company & -> & Ht & Hv & _ & Hc & ->)%auth_Next_inv.
  apply Company_findOne_Some in Hc as (? & ? & ?). simpl.
  split_and!; [done..|]. by exists token, decoded.
Qed.

(** Property X2.  [optionalAuth] sets [req.user] to the user [auth] would
    admit, and to [null] on every request [auth] would answer with an
    error. *)
Theorem optionalAuth_agrees_with_auth authHeader db :
  optionalAuth verify lookup_fails authHeader db
  = match auth verify lookup_fails authHeader db with
    | Next user => Some user
    | Reject _ => None
    end.
Proof.
  unfold optionalAuth, auth. destruct authHeader as [h|]; [|done].
  repeat (case_match; simplify_eq; try done).
Qed.

Lemma auth_Bearer token db :
  auth verify lookup_fails (Some ("Bearer " +:+ token)%string) db
  = if decide (token = ""%string) then Reject NoTokenProvided
    else match verify token with
         | inl JsonWebTokenError => Reject InvalidToken
         | inl TokenExpiredError => Reject TokenExpired
         | inl NotBeforeError => Reject AuthenticationFailed
         | inr decoded =>
             if lookup_fails then Reject AuthenticationFailed
             else match Company_findOne (d_companyId decoded) db with
                  | None => Reject CompanyNoLongerActive
                  | Some company => Next (req_user decoded company)
                  end
         end.
Proof.
  unfold auth. rewrite decide_False by done.
  rewrite prefix_app. cbn [negb].
  pose proof (substring_app "Bearer " token) as Hs.
  change (String.length "Bearer ") with 7%nat in Hs. by rewrite Hs.
Qed.

(** Property X3.  A token whose payload has no role, or an empty one, is given
    the role ['user'], so [authorize(allowedRoles)] lets its request pass
    exactly when [allowedRoles] includes ['user']. *)
Theorem roleless_token_has_role_user token decoded db user allowedRoles :
  auth verify lookup_fails (Some ("Bearer " +:+ token)%string) db = Next user →
  verify token = inr decoded →
  d_role decoded = None ∨ d_role decoded = Some ""%string →
  ru_role user = "user"%string
  ∧ authorize allowedRoles (Some user)
    = if decide ("user"%string ∈ allowedRoles) then Next user
      else Reject InsufficientPermissions.
Proof.
  rewrite auth_Bearer. case_decide; [done|]. intros Hauth Hv Hrole.
  rewrite Hv in Hauth. destruct lookup_fails; [done|].
  destruct (Company_findOne _ _) as [company|]; [|done].
  injection Hauth as <-.
  assert (Hr : role_of decoded = "user"%string)
    by (unfold role_of; by destruct Hrole as [-> | ->]).
  split; [done|]. unfold authorize. simpl. by rewrite Hr.
Qed.
End middleware.

(** Property X4.  When the company lookup is not rejected, [auth] admits every
    request with the header [Bearer <token>] whose non-empty token
    [jwt.verify] accepts for a company that has an active row, and attaches
    an active company row with the id of the token. *)
Theorem auth_accepts_valid_token verify token decoded db company :
  token ≠ ""%string →
  verify token = inr decoded →
  company ∈ companies db →
  c_id company = d_companyId decoded →
  c_isActive company = Some true →
  ∃ found,
    auth verify false (Some ("Bearer " +:+ token)%string) db
    = Next (req_user decoded found)
    ∧ found ∈ companies db
    ∧ c_id found = d_companyId decoded
    ∧ c_isActive found = Some true.
Proof.
  intros Ht Hv Hin Hid Hact. rewrite auth_Bearer, decide_False, Hv by done.
  destruct (Company_findOne (d_companyId decoded) db) as [found|] eqn:Hc.
  - exists found. split; [done|]. by apply Company_findOne_Some in Hc.
  - unfold Company_findOne in Hc.
    assert (Hf : company ∈ filter (λ c, c_id c = d_companyId decoded
                                       ∧ c_isActive c = Some true) (companies db))
      by by apply list_elem_of_filter.
    destruct (filter _ (companies db)); [by apply elem_of_nil in Hf|done].
Qed.

(** ** The routes *)

Section routes.
Context (verify : string → JwtError + Decoded) (lookup_fails : bool).

(** Property X5.  The two alert routes answer with data only to a request
    whose verified token is of the company named in the path, and only
    while that company has an active row. *)
Theorem alerts_only_for_own_company rt failures authHeader company_id page limit
    today db :
  (∃ alerts total pagination,
     Routes.lowStockAlerts verify lookup_fails rt failures authHeader company_id
       page limit today db = inr (Alerts.Ok alerts total pagination))
  ∨ (∃ summary,
       Routes.lowStockSummary verify lookup_fails failures authHeader company_id
         today db
       = inr (Alerts.SummaryOk summary)) →
  ∃ token decoded company,
    authHeader = Some ("Bearer " +:+ token)%string
    ∧ verify token = inr decoded
    ∧ d_companyId decoded = company_id
    ∧ company ∈ companies db
    ∧ c_id company = company_id
    ∧ c_isActive company = Some true.
Proof.
  unfold Routes.lowStockAlerts, Routes.lowStockSummary.
  destruct (auth verify lookup_fails authHeader db) as [r|user] eqn:Hauth;
    [by intros [(? & ? & ? & ?)|(? & ?)]|].
  apply auth_Next_inv in Hauth
    as (token & decoded & company & -> & _ & Hv & _ & Hc & ->).
  apply Company_findOne_Some in Hc as (Hc & Hid & Hact).
  intros Hok. exists token, decoded, company.
  assert (d_companyId decoded = company_id) as <-; [|done].
  destruct Hok as [(alerts & total & pg & [= Hok])|(summary & [= Hok])].
  - by apply AlertsProofs.getLowStockAlerts_Ok in Hok as [Hu _].
  - by apply AlertsProofs.getLowStockSummary_Ok in Hok as [Hu _].
Qed.
End routes.

(** ** The middleware on a request of company 1 *)

Lemma auth_admits_active_company_witness :
  ru_company alice ∈ companies sample_store
  ∧ c_id (ru_company alice) = 1
  ∧ c_isActive (ru_company alice) = Some true.
Proof.
  destruct (auth_admits_active_company demo_verify false
              (Some "Bearer alice"%string) sample_store alice)
    as (H1 & H2 & H3 & _); [reflexivity|]. by split_and!.
Defined.

Lemma auth_accepts_valid_token_witness :
  ∃ found,
    auth demo_verify false (Some "Bearer alice"%string) sample_store
    = Next (req_user alice_payload found).
Proof.
  destruct (auth_accepts_valid_token demo_verify "alice" alice_payload
              sample_store (mkCompany 1 (Some true)))
    as (found & H & _); [done|reflexivity|by left|done|done|].
  exists found. exact H.
Defined.

Lemma roleless_token_has_role_user_witness :
  ru_role alice = "user"%string
  ∧ authorize ["admin"; "manager"]%string (Some alice)
    = Reject InsufficientPermissions.
Proof.
  destruct (roleless_token_has_role_user demo_verify false "alice"
              alice_payload sample_store alice ["admin"; "manager"]%string)
    as [H1 H2]; [reflexivity|reflexivity|by left|].
  split; [exact H1|exact H2].
Defined.

Lemma alerts_only_for_own_company_witness :
  ∃ token decoded,
    "Bearer alice"%string = ("Bearer " +:+ token)%string
    ∧ demo_verify token = inr decoded
    ∧ d_companyId decoded = 1.
Proof.
  destruct (alerts_only_for_own_company demo_verify false demo_runtime
              Alerts.no_failures (Some "Bearer alice"%string) 1 None None 100
              demo_store)
    as (token & decoded & company & H1 & H2 & H3 & _).
  - left. eexists _, _, _. vm_compute. reflexivity.
  - exists token, decoded. split_and!; [congruence|exact H2|exact H3].
Defined.

End AuthProofs.

Module AlertsInvariants.
Import JS Alerts AlertsProofs Examples Scenarios.

(** ** What an alert is made of *)

Lemma elem_of_from_joins_suppliers s p i w pc sup :
  (p, i, w, pc, sup) ∈ from_joins_suppliers s →
  p ∈ products s ∧ i ∈ inventory s ∧ w ∈ warehouses s ∧ links p i w.
Proof.
  unfold from_joins_suppliers, from_joins, links.
  intros ([[[p' i'] w'] pc'] & Hin & Hj)%list_elem_of_bind.
  apply list_elem_of_bind in Hin as (sup' & Hin & _).
  apply list_elem_of_singleton in Hin. simplify_eq.
  apply list_elem_of_bind in Hj as (p0 & Hj & Hp).
  apply list_elem_of_bind in Hj as (i0 & Hj & [? Hi]%list_elem_of_filter).
  apply list_elem_of_bind in Hj as (w0 & Hj & [? Hw]%list_elem_of_filter).
  apply list_elem_of_bind in Hj as (pc0 & Hj & _).
  apply list_elem_of_singleton in Hj. by simplify_eq.
Qed.

(** Every alert of a response comes from a row of the join that passes
    the [WHERE] clause. *)
Lemma alert_origin rt failures user companyId page limit today s alerts total
    pg a :
  getLowStockAlerts rt failures user companyId page limit today s
  = Ok alerts total pg →
  a ∈ alerts →
  ∃ p i w pc sup,
    (p, i, w, pc, sup) ∈ from_joins_suppliers s
    ∧ where_clause s companyId (thirtyDaysAgo today) (p, i, w, pc)
    ∧ a = to_alert (select_row s (thirtyDaysAgo today) (p, i, w, pc, sup)).
Proof.
  intros (_ & _ & results & Hq & ->)%getLowStockAlerts_Ok
    (r & -> & Hr)%list_elem_of_fmap.
  eapply lowStockQuery_subseteq in Hr; [|done].
  apply elem_of_remove_dups, list_elem_of_fmap in Hr
    as ([[[[p i] w] pc] sup] & -> & [Hw Hj]%list_elem_of_filter).
  by exists p, i, w, pc, sup.
Qed.

(** Property X6.  Every alert of a response describes an inventory record of
    the database: an active product and an active warehouse of the company
    asked for, linked by the record, with the alert's stock the record's
    quantity less its reserved quantity, and that stock at or below the
    alert's threshold. *)
Theorem alert_is_of_own_low_stock rt failures user companyId page limit today s
    alerts total pg a :
  getLowStockAlerts rt failures user companyId page limit today s
  = Ok alerts total pg →
  a ∈ alerts →
  a_current_stock a ≤ a_threshold a
  ∧ ∃ p i w,
      p ∈ products s ∧ i ∈ inventory s ∧ w ∈ warehouses s ∧ links p i w
      ∧ p_companyId p = companyId ∧ w_companyId w = companyId
      ∧ p_isActive p = Some true ∧ w_isActive w = Some true
      ∧ a_product_id a = p_id p ∧ a_product_name a = p_name p
      ∧ a_sku a = p_sku p
      ∧ a_warehouse_id a = w_id w ∧ a_warehouse_name a = w_name w
      ∧ a_current_stock a = available_stock i.
Proof.
  intros Hok Ha.
  destruct (alert_origin _ _ _ _ _ _ _ _ _ _ _ _ Hok Ha)
    as (p & i & w & pc & sup & Hj & Hw & ->).
  apply elem_of_from_joins_suppliers in Hj as (? & ? & ? & ?).
  destruct Hw as (? & ? & ? & ? & ? & ?). simpl.
  split; [done|]. by exists p, i, w.
Qed.

Lemma alert_is_of_own_low_stock_witness :
  a_current_stock demo_alert ≤ a_threshold demo_alert.
Proof.
  destruct (alert_is_of_own_low_stock demo_runtime no_failures (mkUser 7 1) 1
    None None 100 demo_store
    (to_alert <$> ordered demo_store 1 (thirtyDaysAgo 100)) 3
    {| current_page := of_Z 1; total_pages := of_Z 1; total_items := 3;
       pg_limit := of_Z 100 |} demo_alert) as [H _].
  - vm_compute. reflexivity.
  - by_compute.
  - exact H.
Defined.

(** ** The size of a page *)

(** Property X7.  Under the keys of the schema, a page of alerts has as
    many alerts as the database was asked for, or as many as are left
    after the rows it was asked to skip: with [L] and [O] the unsigned
    integers the handler writes after [LIMIT] and [OFFSET], its length is
    [min(L, max(0, total - O))]. *)
Theorem page_length rt failures s user companyId page limit today alerts total
    pg :
  keys_unique s →
  getLowStockAlerts rt failures user companyId page limit today s
  = Ok alerts total pg →
  ∃ L O,
    unsigned_literal (limit_text rt limit) = Some L
    ∧ unsigned_literal (offset_text rt page limit) = Some O
    ∧ Z.of_nat (length alerts)
      = Z.min (Z.of_N L) (Z.max 0 (total - Z.of_N O)).
Proof.
  intros Hku (_ & -> & results & Hq & ->)%getLowStockAlerts_Ok.
  apply lowStockQuery_Some in Hq as (L & O & HL & HO & ->).
  exists L, O. split_and!; [done..|].
  rewrite countQuery_qualifying by done.
  rewrite length_fmap, length_take, length_drop.
  unfold ordered.
  rewrite merge_sort_Permutation, candidates_Permutation, length_fmap by done.
  lia.
Qed.

Lemma page_length_witness :
  ∃ L O,
    unsigned_literal (limit_text demo_runtime (Some "10"%string)) = Some L
    ∧ unsigned_literal
        (offset_text demo_runtime (Some "3"%string) (Some "10"%string))
      = Some O
    ∧ Z.of_nat (length (to_alert <$> take 10 (drop 20
                          (ordered paged_store 1 (thirtyDaysAgo 100)))))
      = Z.min (Z.of_N L) (Z.max 0 (25 - Z.of_N O)).
Proof.
  apply (page_length demo_runtime no_failures paged_store (mkUser 7 1) 1
    (Some "3"%string) (Some "10"%string) 100
    (to_alert <$> take 10 (drop 20 (ordered paged_store 1 (thirtyDaysAgo 100))))
    25
    {| current_page := of_Z 3; total_pages := of_Z 3; total_items := 25;
       pg_limit := of_Z 10 |}).
  - by_compute.
  - vm_compute. reflexivity.
Defined.

(** The third page of ten, of twenty-five alerts, has five. *)
Example page_3_of_25 :
  ∃ alerts,
    getLowStockAlerts demo_runtime no_failures (mkUser 7 1) 1
      (Some "3"%string) (Some "10"%string) 100 paged_store
    = Ok alerts 25 {| current_page := of_Z 3; total_pages := of_Z 3;
                      total_items := 25; pg_limit := of_Z 10 |}
    ∧ length alerts = 5%nat.
Proof. eexists. split; [vm_compute; reflexivity|done]. Qed.

(** ** The summary and the alert list count the same rows *)

Lemma SUM_group_sizes {A K} `{EqDecision K} (f : A → K) (l : list A)
    (keys : list K) :
  NoDup keys → (∀ x, x ∈ l → f x ∈ keys) →
  SUM ((λ k, Z.of_nat (length (filter (λ x, f x = k) l))) <$> keys)
  = Z.of_nat (length l).
Proof.
  intros Hnd. induction l as [|x l IH]; intros Hin.
  - apply (SUM_zero keys).
  - transitivity
      (SUM ((λ k, (if decide (f x = k) then 1 else 0)
                  + Z.of_nat (length (filter (λ y, f y = k) l))) <$> keys)).
    { f_equal. apply list_fmap_ext. intros _ k _. simpl. rewrite filter_cons.
      destruct (decide (f x = k)); simpl; lia. }
    rewrite (SUM_plus (λ k, if decide (f x = k) then 1 else 0)).
    rewrite SUM_indicator by (try apply Hin; by try left).
    rewrite IH by (intros; apply Hin; by right).
    rewrite length_cons. lia.
Qed.

(** Property X11.  Under the keys of the schema, the [total_alerts] of the
    categories of the summary add up to the [total_alerts] of the alert
    list for the same company and day. *)
Theorem summary_adds_up_to_total rt failures failures' s user companyId page
    limit today summary alerts total pg :
  keys_unique s →
  getLowStockSummary failures' user companyId today s = SummaryOk summary →
  getLowStockAlerts rt failures user companyId page limit today s
  = Ok alerts total pg →
  SUM (total_alerts <$> summary) = total.
Proof.
  intros Hku [_ ->]%getLowStockSummary_Ok (_ & -> & _)%getLowStockAlerts_Ok.
  unfold summaryQuery, countQuery.
  set (rows := filter (where_clause s companyId (thirtyDaysAgo today))
                 (from_joins s)).
  set (keys := remove_dups (group_key <$> rows)).
  transitivity
    (SUM ((λ k, Z.of_nat (length (filter (λ j, group_key j = k) rows)))
            <$> keys)).
  { rewrite <- list_fmap_compose.
    rewrite (SUM_Permutation _
      ((total_alerts ∘ to_entry)
         <$> ((λ k, aggregate k (filter (λ j, group_key j = k) rows)) <$> keys)))
      by (by rewrite merge_sort_Permutation).
    by rewrite <- list_fmap_compose. }
  rewrite (SUM_group_sizes group_key).
  - f_equal. rewrite remove_dups_NoDup; [by rewrite length_fmap|].
    apply NoDup_fmap_2_strong; [|by apply NoDup_filter, NoDup_from_joins].
    intros j1 j2 [_ H1]%list_elem_of_filter [_ H2]%list_elem_of_filter [= ??].
    by apply (from_joins_key_inj s Hku).
  - apply NoDup_remove_dups.
  - intros j Hj. apply elem_of_remove_dups, list_elem_of_fmap. eauto.
Qed.

Lemma summary_adds_up_to_total_witness :
  ∃ summary,
    getLowStockSummary no_failures (mkUser 7 1) 1 100 demo_store
    = SummaryOk summary
    ∧ SUM (total_alerts <$> summary) = 3.
Proof.
  eexists. split; [vm_compute; reflexivity|].
  apply (summary_adds_up_to_total demo_runtime no_failures no_failures
    demo_store (mkUser 7 1) 1 None None 100 _
    (to_alert <$> ordered demo_store 1 (thirtyDaysAgo 100)) 3
    {| current_page := of_Z 1; total_pages := of_Z 1; total_items := 3;
       pg_limit := of_Z 100 |}).
  - by_compute.
  - vm_compute. reflexivity.
  - vm_compute. reflexivity.
Defined.

End AlertsInvariants.

Module ValidationProofs.
Import Products ProductsProofs Examples Scenarios.

(** ** Canonical rationals *)

Lemma Q2Qc_this (q : Q) : (Q2Qc q == q)%Q.
Proof. apply Qred_correct. Qed.

(** ** The fields of a body that passes *)

Lemma violations_nil body :
  violations body = [] →
  (validate_string name_schema (b_name body)).1 = []
  ∧ (validate_string sku_schema (b_sku body)).1 = []
  ∧ (validate_string description_schema (b_description body)).1 = []
  ∧ (validate_number price_schema (b_price body)).1 = []
  ∧ (validate_number cost_schema (b_cost body)).1 = []
  ∧ (validate_number weight_schema (b_weight body)).1 = []
  ∧ (validate_string dimensions_schema (b_dimensions body)).1 = []
  ∧ (validate_number categoryId_schema (b_categoryId body)).1 = []
  ∧ (validate_number supplierId_schema (b_supplierId body)).1 = []
  ∧ (validate_number lowStockThreshold_schema (b_lowStockThreshold body)).1 = []
  ∧ (validate_number warehouseId_schema (b_warehouseId body)).1 = []
  ∧ (validate_number initialQuantity_schema (b_initialQuantity body)).1 = []
  ∧ b_unknown body = [].
Proof.
  unfold violations, at_path. intros Hv.
  repeat (apply app_eq_nil in Hv as [?%fmap_nil_inv Hv]).
  apply fmap_nil_inv in Hv. by split_and!.
Qed.

Lemma validate_string_ok lo hi (x : StrInput) :
  (validate_string (mkStringSchema [s_min lo; s_max hi] false required) x).1 = [] →
  ∃ v, (validate_string (mkStringSchema [s_min lo; s_max hi] false required) x).2
       = Some v
       ∧ v ≠ ""%string
       ∧ lo ≤ Z.of_nat (String.length v) ≤ hi.
Proof.
  destruct x as [|v|]; simpl; [done| |done].
  destruct (decide (v = ""%string)); [done|]. simpl.
  unfold string_rule.
  destruct (decide (lo ≤ _)); [|done]. destruct (decide (_ ≤ hi)); [|done].
  intros _. by exists v.
Qed.

Lemma is_integer_Qfloor (v : Qc) : is_integer v → (v == inject_Z (Qfloor v))%Q.
Proof.
  unfold is_integer. intros E. rewrite <- E at 1. apply Q2Qc_this.
Qed.

Lemma Qc_pos_Qfloor (v : Qc) : is_integer v → (0 < v)%Qc → 0 < Qfloor v.
Proof.
  intros E%is_integer_Qfloor Hv. rewrite Zlt_Qlt, <- E. exact Hv.
Qed.

Lemma Qc_min0_Qfloor (v : Qc) : (Q2Qc (inject_Z 0) ≤ v)%Qc → 0 ≤ Qfloor v.
Proof.
  intros Hv. change 0 with (Qfloor (inject_Z 0)). rewrite Qfloor_Z.
  change 0 with (Qfloor 0%Q). by apply Qfloor_resp_le.
Qed.

Lemma validate_id_ok presence (x : NumInput) v :
  (validate_number (mkNumberSchema [n_integer; n_positive] presence None) x).1 = [] →
  (validate_number (mkNumberSchema [n_integer; n_positive] presence None) x).2
  = Some v →
  0 < Qfloor v.
Proof.
  destruct x as [|value|]; cbn -[Q2Qc MAX_SAFE_INTEGER round_to Qclt Qcle is_integer]; [done| |done].
  unfold validate_number. cbn [precision_of nb_rules]. cbn -[Q2Qc MAX_SAFE_INTEGER round_to Qclt Qcle is_integer].
  destruct (decide (_ ∨ _)); [done|]. cbn -[Q2Qc MAX_SAFE_INTEGER round_to Qclt Qcle is_integer]. unfold number_rule.
  destruct (decide (is_integer value)); [|done].
  destruct (decide (0 < value)%Qc); [|done].
  intros _ [= <-]. by apply Qc_pos_Qfloor.
Qed.

Lemma validate_count_ok presence dflt (x : NumInput) v :
  (0 ≤ default 0%Qc dflt)%Qc →
  (validate_number (mkNumberSchema [n_integer; n_min 0] presence dflt) x).1 = [] →
  (validate_number (mkNumberSchema [n_integer; n_min 0] presence dflt) x).2
  = Some v →
  0 ≤ Qfloor v.
Proof.
  intros Hd. destruct x as [|value|]; cbn -[Q2Qc MAX_SAFE_INTEGER round_to Qclt Qcle is_integer]; [| |done].
  - intros _ E. rewrite E in Hd. simpl in Hd.
    change 0 with (Qfloor 0%Q). by apply Qfloor_resp_le.
  - unfold validate_number. cbn [precision_of nb_rules]. cbn -[Q2Qc MAX_SAFE_INTEGER round_to Qclt Qcle is_integer].
    destruct (decide (_ ∨ _)); [done|]. cbn -[Q2Qc MAX_SAFE_INTEGER round_to Qclt Qcle is_integer]. unfold number_rule.
    destruct (decide (is_integer value)); [|done].
    destruct (decide (_ ≤ value)%Qc); [|done].
    intros _ [= <-]. by apply Qc_min0_Qfloor.
Qed.

Lemma validate_money_ok presence (x : NumInput) v :
  (validate_number (mkNumberSchema [n_positive; n_precision 2] presence None) x).1
  = [] →
  (validate_number (mkNumberSchema [n_positive; n_precision 2] presence None) x).2
  = Some v →
  (0 < v)%Qc ∧ round_to 2 v = v.
Proof.
  destruct x as [|value|]; cbn -[Q2Qc MAX_SAFE_INTEGER round_to Qclt Qcle is_integer]; [done| |done].
  unfold validate_number. cbn [precision_of nb_rules]. cbn -[Q2Qc MAX_SAFE_INTEGER round_to Qclt Qcle is_integer].
  destruct (decide (_ ∨ _)); [done|]. cbn -[Q2Qc MAX_SAFE_INTEGER round_to Qclt Qcle is_integer]. unfold number_rule.
  destruct (decide (0 < _)%Qc); [|done].
  destruct (decide (round_to 2 _ = _)); [|done].
  by intros _ [= <-].
Qed.

Lemma validate_number_is_Some sc x :
  nb_presence sc = required ∨ is_Some (nb_default sc) →
  (validate_number sc x).1 = [] → is_Some (validate_number sc x).2.
Proof.
  destruct x as [|value|]; cbn -[Q2Qc MAX_SAFE_INTEGER round_to Qclt Qcle is_integer]; [| |done].
  - intros [->|?]; done.
  - intros _ _. unfold validate_number. case_decide; by eexists.
Qed.

(** Property X12.  A body that [createProductSchema] accepts has a name of 1 to
    255 characters, a SKU of 1 to 100, a positive price with at most two
    decimals (as have the cost and the weight when given), dimensions of at
    most 100 characters, positive ids for the category, the supplier and
    the warehouse, a threshold that is there and not negative, and an
    initial quantity that is not negative. *)
Theorem accepted_body_fits_the_columns prefs body value :
  validate prefs body = inr value →
  (v_name value ≠ ""%string ∧ Z.of_nat (String.length (v_name value)) ≤ 255)
  ∧ (v_sku value ≠ ""%string ∧ Z.of_nat (String.length (v_sku value)) ≤ 100)
  ∧ ((0 < v_price value)%Qc ∧ round_to 2 (v_price value) = v_price value)
  ∧ (∀ c, v_cost value = Some c → (0 < c)%Qc ∧ round_to 2 c = c)
  ∧ (∀ w, v_weight value = Some w → (0 < w)%Qc ∧ round_to 2 w = w)
  ∧ (∀ d, v_dimensions value = Some d → Z.of_nat (String.length d) ≤ 100)
  ∧ (∀ c, v_categoryId value = Some c → 0 < c)
  ∧ (∀ s, v_supplierId value = Some s → 0 < s)
  ∧ (∃ t, v_lowStockThreshold value = Some t ∧ 0 ≤ t)
  ∧ 0 < v_warehouseId value
  ∧ 0 ≤ v_initialQuantity value.
Proof.
  unfold validate. destruct (violations body) eqn:Hv; intros [= <-].
  apply violations_nil in Hv
    as (Hn & Hs & _ & Hp & Hc & Hw & Hd & Hcat & Hsup & Ht & Hwh & Hq & _).
  unfold value_of. cbn -[validate_string validate_number].
  unfold name_schema, sku_schema in *.
  assert (Hname := validate_string_ok _ _ _ Hn).
  assert (Hsku := validate_string_ok _ _ _ Hs).
  destruct Hname as (vn & -> & ? & ?), Hsku as (vs & -> & ? & ?).
  assert (Hprice : (0 < default 0%Qc (validate_number price_schema (b_price body)).2)%Qc
            ∧ round_to 2 (default 0%Qc (validate_number price_schema (b_price body)).2)
              = default 0%Qc (validate_number price_schema (b_price body)).2).
  { destruct (validate_number_is_Some price_schema (b_price body))
      as [v E]; [by left|done|].
    rewrite E. by apply (validate_money_ok required (b_price body)). }
  destruct Hprice. simpl.
  split_and!; try done; try lia.
  - intros c E. by apply (validate_money_ok optional (b_cost body)).
  - intros w E. by apply (validate_money_ok optional (b_weight body)).
  - intros d. destruct (b_dimensions body) as [|v|]; simpl; [done| |done].
    simpl in Hd. destruct (decide (v = ""%string)); [done|]. simpl in *.
    destruct (decide (_ ≤ 100)); [|done]. by intros [= <-].
  - intros c (v & E & ->)%fmap_Some.
    by apply (validate_id_ok optional (b_categoryId body)).
  - intros s (v & E & ->)%fmap_Some.
    by apply (validate_id_ok optional (b_supplierId body)).
  - destruct (validate_number_is_Some lowStockThreshold_schema
                (b_lowStockThreshold body)) as [v E]; [by right|done|].
    rewrite E. exists (Qfloor v). split; [done|].
    by apply (validate_count_ok optional (Some (Q2Qc 10))
                (b_lowStockThreshold body)).
  - destruct (validate_number_is_Some warehouseId_schema (b_warehouseId body))
      as [v E]; [by left|done|].
    rewrite E. by apply (validate_id_ok required (b_warehouseId body)).
  - destruct (validate_number_is_Some initialQuantity_schema
                (b_initialQuantity body)) as [v E]; [by left|done|].
    rewrite E. by apply (validate_count_ok required None (b_initialQuantity body)).
Qed.

Lemma accepted_body_fits_the_columns_witness :
  v_name (value_of gadget) ≠ ""%string
  ∧ (0 < v_price (value_of gadget))%Qc
  ∧ 0 < v_warehouseId (value_of gadget)
  ∧ 0 ≤ v_initialQuantity (value_of gadget).
Proof.
  destruct (accepted_body_fits_the_columns defaults gadget (value_of gadget))
    as ([H1 _] & _ & [H2 _] & _ & _ & _ & _ & _ & _ & H3 & H4);
    [vm_compute; reflexivity|].
  split_and!; [exact H1|exact H2|exact H3|exact H4].
Defined.

End ValidationProofs.

Module ProductsInvariants.
Import Products ProductsProofs Integrity Provisioning Examples Scenarios.

(** ** What a successful request has done *)

Lemma head_filter_None_inv {A} (P : A → Prop) `{∀ x, Decision (P x)} l x :
  head (filter P l) = None → x ∈ l → ¬ P x.
Proof.
  intros Hh Hx HP.
  assert (Hin : x ∈ filter P l) by by apply list_elem_of_filter.
  destruct (filter P l); [by apply elem_of_nil in Hin|done].
Qed.

Lemma checks_Continue_inv faults user value s s' :
  checks faults user value s = inr (Continue tt, s') →
  (∃ w, w ∈ warehouses s ∧ w_id w = v_warehouseId value
        ∧ w_companyId w = u_companyId user ∧ w_isActive w = Some true)
  ∧ (v_sku value ∉ p_sku <$> products s).
Proof.
  unfold checks, await, query, mbind, Tx_bind, tx_bind, tx_ret, tx_throw,
    Warehouse_findOne, Product_findOne, tx_gets.
  destruct (faults q_Warehouse_findOne); [done|].
  destruct (head (filter _ (warehouses s))) as [w|] eqn:Hw; [|done].
  destruct (faults q_Product_findOne); [done|].
  destruct (head (filter _ (products s))) as [p|] eqn:Hp; [done|].
  intros _. split.
  - apply head_Some_elem_of, list_elem_of_filter in Hw. exists w. tauto.
  - intros (p & E & Hin)%list_elem_of_fmap.
    by eapply (head_filter_None_inv _ _ p) in Hp.
Qed.

Lemma writes_Continue_inv faults now user value db r tx :
  writes faults now user value db = inr (Continue r, tx) →
  r = Created (next_id (p_id <$> products db)) (v_name value) (v_sku value)
        (v_price value) (v_warehouseId value) (v_initialQuantity value)
  ∧ tx = provisioned now user value db
  ∧ (v_sku value ∉ p_sku <$> products db)
  ∧ u_companyId user ∈ c_id <$> companies db
  ∧ references pc_id (product_categories db) (v_categoryId value)
  ∧ references s_id (suppliers db) (v_supplierId value)
  ∧ v_warehouseId value ∈ w_id <$> warehouses db
  ∧ ((next_id (p_id <$> products db), v_warehouseId value)
     ∉ (λ i, (i_productId i, i_warehouseId i)) <$> inventory db).
Proof.
  unfold writes, await, query, mbind, Tx_bind, tx_bind, tx_ret, tx_throw.
  destruct (faults q_Product_create); [done|].
  unfold Product_create.
  destruct (decide (v_sku value ∈ _)) as [|Hsku]; [done|].
  destruct (decide (_ ∧ _)) as [(Hc & Hpc & Hsp)|]; [|done].
  destruct (faults q_Inventory_findOne); [done|].
  unfold Inventory_findOne, tx_gets. cbn [inventory p_id].
  destruct (head _); [done|].
  destruct (faults q_Inventory_create); [done|].
  unfold Inventory_create. cbn [inventory products warehouses].
  destruct (decide (_ ∈ _)) as [|Hpair]; [done|].
  destruct (decide (_ ∧ _)) as [[_ Hw]|]; [|done].
  destruct (faults q_InventoryMovement_create); [done|].
  unfold InventoryMovement_create. cbn [inventory i_id].
  destruct (decide _); [|done].
  intros [= <- <-]. by split_and!.
Qed.

(** A request leaves the database as it was, or as its writes made it. *)
Lemma createProduct_cases faults now user body seen db r db' :
  createProduct_at faults now user body seen db = (r, db') →
  (status r ≠ 201 ∧ db' = db)
  ∨ ∃ value,
      validate defaults body = inr value
      ∧ checks faults user value seen = inr (Continue tt, seen)
      ∧ writes faults now user value db = inr (Continue r, db').
Proof.
  unfold createProduct_at.
  destruct (validate defaults body) as [details|value] eqn:Hv;
    [intros [= <- <-]; by left|].
  destruct (checks _ _ _ _) as [e|[[r1|[]] s1]] eqn:Hc.
  - intros [= <- <-]. left. split; [apply catch_status|done].
  - apply checks_Rollback in Hc as [-> | ->]; intros [= <- <-]; by left.
  - pose proof (checks_reads _ _ _ _ _ _ Hc) as ->.
    destruct (writes _ _ _ _ _) as [e|[[r2|r2] s2]] eqn:Hw.
    + intros [= <- <-]. left. split; [apply catch_status|done].
    + apply writes_Rollback in Hw as ->. intros [= <- <-]. by left.
    + destruct (faults q_commit) as [e|].
      * intros [= <- <-]. left. split; [apply catch_status|done].
      * intros [= <- <-]. right. by exists value.
Qed.

Lemma createProduct_Created_inv faults now user body seen db r db' :
  createProduct_at faults now user body seen db = (r, db') →
  status r = 201 →
  ∃ value,
    validate defaults body = inr value
    ∧ checks faults user value seen = inr (Continue tt, seen)
    ∧ writes faults now user value db = inr (Continue r, db').
Proof. intros [[? _]|?]%createProduct_cases ?; done. Qed.

(** ** The integrity of the database is kept *)

(** Property X15.  If no inventory record puts a product of one company in a
    warehouse of another, a request served on a consistent database leaves
    it so: the product it creates is the caller's and is stocked in a
    warehouse of the caller's company. *)
Theorem createProduct_keeps_same_tenant faults now user body db r db' :
  consistent db → same_tenant db →
  createProduct faults now user body db = (r, db') →
  same_tenant db'.
Proof.
  intros Hdb Hst [[_ ->]|(value & _ & Hc & Hw)]%createProduct_cases; [done|].
  apply checks_Continue_inv in Hc as ((w0 & Hw0 & Hid0 & Hco0 & _) & _).
  apply writes_Continue_inv in Hw as (_ & -> & _).
  destruct Hdb as ([_ Kw _ _ _] & _ & _ & _ & Fi & _).
  unfold same_tenant, provisioned in *.
  cbn [warehouses products inventory].
  rewrite Forall_forall in Fi.
  assert (Hold : ∀ i, i ∈ inventory db →
            i_productId i ≠ next_id (p_id <$> products db)).
  { intros i [Hi _]%Fi E. rewrite E in Hi. by apply next_id_fresh in Hi. }
  rewrite !Forall_forall in Hst. rewrite !Forall_forall.
  intros i Hi. rewrite Forall_forall. intros p Hp.
  rewrite Forall_forall. intros w Hw [E1 E2].
  apply elem_of_app in Hi as [Hi|Hi]; apply elem_of_app in Hp as [Hp|Hp];
    try (apply list_elem_of_singleton in Hi as ->);
    try (apply list_elem_of_singleton in Hp as ->).
  - specialize (Hst i Hi). rewrite Forall_forall in Hst.
    specialize (Hst p Hp). rewrite Forall_forall in Hst.
    by apply (Hst w Hw).
  - by destruct (Hold i Hi).
  - simpl in E1. apply (list_elem_of_fmap_2 p_id) in Hp. rewrite <- E1 in Hp.
    by apply next_id_fresh in Hp.
  - simpl in *. rewrite <- Hco0. f_equal.
    apply (AlertsProofs.NoDup_fmap_elem_inj w_id (warehouses db)); [done..|].
    congruence.
Qed.

Lemma createProduct_keeps_same_tenant_witness : same_tenant after_winner.
Proof.
  apply (createProduct_keeps_same_tenant no_faults 5 (mkUser 7 1) gadget
           sample_store
           (createProduct no_faults 5 (mkUser 7 1) gadget sample_store).1);
    by_compute.
Defined.

(** ** Insert, then look up *)

Lemma filter_snoc_only {A} (P : A → Prop) `{∀ x, Decision (P x)} l x :
  (∀ y, y ∈ l → ¬ P y) → P x → filter P (l ++ [x]) = [x].
Proof.
  intros Hno HP. rewrite filter_app.
  replace (filter P l) with (@nil A).
  - simpl. rewrite filter_cons. by rewrite decide_True.
  - symmetry. destruct (filter P l) as [|y k] eqn:E; [done|].
    assert (Hy : y ∈ filter P l) by (rewrite E; by left).
    apply list_elem_of_filter in Hy as [? ?]. by destruct (Hno y).
Qed.

(** Property X16.  After a 201 response, [Product.findOne] by the SKU of the
    response finds the product with the id, name and price of the response,
    active and of the caller's company, and [Inventory.findOne] by the id
    and the warehouse finds the record with the initial quantity and nothing
    reserved. *)
Theorem created_rows_are_found faults now user body seen db db'
    id name sku price warehouseId initialQuantity :
  createProduct_at faults now user body seen db
  = (Created id name sku price warehouseId initialQuantity, db') →
  ∃ product record,
    Product_findOne sku db' = inr (Some product, db')
    ∧ Inventory_findOne id warehouseId db' = inr (Some record, db')
    ∧ p_id product = id ∧ p_name product = name ∧ p_price product = price
    ∧ p_companyId product = u_companyId user
    ∧ p_isActive product = Some true
    ∧ i_quantity record = initialQuantity ∧ i_reservedQuantity record = 0.
Proof.
  intros (value & _ & _ & Hw)%createProduct_Created_inv; [|done].
  apply writes_Continue_inv in Hw as ([= -> -> -> -> -> ->] & -> & Hsku & _ & _
                                      & _ & _ & Hpair).
  exists (new_product user value db), (new_record now user value db).
  unfold Product_findOne, Inventory_findOne, tx_gets, provisioned.
  cbn [products inventory].
  rewrite !filter_snoc_only; [by split_and!|..|done].
  - intros i Hi [E1 E2]. apply Hpair, list_elem_of_fmap. exists i.
    split; [|done]. by rewrite E1, E2.
  - done.
  - intros p Hp E. apply Hsku, list_elem_of_fmap. eauto.
Qed.

Lemma created_rows_are_found_witness :
  ∃ product record,
    Product_findOne "GAD-1" after_winner = inr (Some product, after_winner)
    ∧ Inventory_findOne 2 2 after_winner = inr (Some record, after_winner)
    ∧ p_id product = 2 ∧ i_quantity record = 40.
Proof.
  destruct (created_rows_are_found no_faults 5 (mkUser 7 1) gadget
              sample_store sample_store after_winner 2 "Gadget" "GAD-1"
              (Q2Qc (1999 # 100)) 2 40)
    as (product & record & H1 & H2 & H3 & _ & _ & _ & _ & H4 & _);
    [by_compute|].
  exists product, record. split_and!; [exact H1|exact H2|exact H3|exact H4].
Defined.

(** ** Tenancy of what is created *)

(** Property X17.  A 201 response means the warehouse of the request was, when
    looked up, an active warehouse of the caller's company; it is a row of
    the database after the request, and the new inventory record is the
    new product's in that warehouse. *)
Theorem created_in_own_warehouse faults now user body seen db db'
    id name sku price warehouseId initialQuantity :
  createProduct_at faults now user body seen db
  = (Created id name sku price warehouseId initialQuantity, db') →
  (∃ w, w ∈ warehouses seen ∧ w_id w = warehouseId
        ∧ w_companyId w = u_companyId user ∧ w_isActive w = Some true)
  ∧ warehouseId ∈ w_id <$> warehouses db'
  ∧ ∃ product record,
      products db' = products db ++ [product]
      ∧ inventory db' = inventory db ++ [record]
      ∧ p_id product = id ∧ p_companyId product = u_companyId user
      ∧ i_productId record = id ∧ i_warehouseId record = warehouseId.
Proof.
  intros (value & _ & Hc & Hw)%createProduct_Created_inv; [|done].
  apply checks_Continue_inv in Hc as (Hwh & _).
  apply writes_Continue_inv in Hw as ([= -> -> -> -> -> ->] & -> & _ & _ & _
                                      & _ & Hwid & _).
  split_and!; [done..|].
  by exists (new_product user value db), (new_record now user value db).
Qed.

Lemma created_in_own_warehouse_witness :
  ∃ w, w ∈ warehouses sample_store ∧ w_id w = 2 ∧ w_companyId w = 1
       ∧ w_isActive w = Some true.
Proof.
  destruct (created_in_own_warehouse no_faults 5 (mkUser 7 1) gadget
              sample_store sample_store after_winner 2 "Gadget" "GAD-1"
              (Q2Qc (1999 # 100)) 2 40) as [H _]; [by_compute|exact H].
Defined.

(** ** A SKU is created once *)

(** Property X18.  Once a request has created a product, a later request with
    the same SKU, by any caller, is answered with [Invalid warehouse] or
    with [SKU already exists] and changes nothing, whatever the storage layer
    does after the two lookups. *)
Theorem sku_is_created_once faults now user body seen db db'
    id name sku price warehouseId initialQuantity
    faults2 now2 user2 body2 value2 :
  createProduct_at faults now user body seen db
  = (Created id name sku price warehouseId initialQuantity, db') →
  validate defaults body2 = inr value2 →
  v_sku value2 = sku →
  faults2 q_Warehouse_findOne = None →
  faults2 q_Product_findOne = None →
  createProduct faults2 now2 user2 body2 db' = (InvalidWarehouse, db')
  ∨ createProduct faults2 now2 user2 body2 db' = (SkuAlreadyExists sku, db').
Proof.
  intros (value & _ & _ & Hw)%createProduct_Created_inv Hv2 Hsku Hf1 Hf2;
    [|done].
  apply writes_Continue_inv in Hw as ([= -> -> -> -> -> ->] & -> & _).
  unfold createProduct, createProduct_at. rewrite Hv2.
  unfold checks, await, query, mbind, Tx_bind, tx_bind, tx_ret,
    Warehouse_findOne, Product_findOne, tx_gets. rewrite Hf1, Hf2.
  destruct (head (filter _ (warehouses _))); [|by left].
  destruct (head_filter_is_Some (λ p, p_sku p = v_sku value2)
              (products (provisioned now user value db))
              (new_product user value db)) as [p ->].
  - unfold provisioned. cbn [products]. rewrite elem_of_app. right. by left.
  - done.
  - right. by rewrite Hsku.
Qed.

Lemma sku_is_created_once_witness :
  createProduct no_faults 9 (mkUser 8 1) gadget after_winner
  = (InvalidWarehouse, after_winner)
  ∨ createProduct no_faults 9 (mkUser 8 1) gadget after_winner
    = (SkuAlreadyExists "GAD-1", after_winner).
Proof.
  apply (sku_is_created_once no_faults 5 (mkUser 7 1) gadget sample_store
           sample_store after_winner 2 "Gadget" "GAD-1" (Q2Qc (1999 # 100)) 2 40
           no_faults 9 (mkUser 8 1) gadget (value_of gadget));
    [by_compute|vm_compute; reflexivity|reflexivity|done|done].
Defined.

(** Property X19.  The id of a created product is above every id of the table
    and its SKU was used by no product of any company, neither when looked
    up nor when inserted; afterwards exactly one product has the SKU and
    exactly one has the id. *)
Theorem created_id_and_sku_are_new faults now user body seen db db'
    id name sku price warehouseId initialQuantity :
  createProduct_at faults now user body seen db
  = (Created id name sku price warehouseId initialQuantity, db') →
  (sku ∉ p_sku <$> products seen) ∧ (sku ∉ p_sku <$> products db)
  ∧ (id ∉ p_id <$> products db)
  ∧ (∀ p, p ∈ products db → p_id p < id)
  ∧ length (filter (λ p, p_sku p = sku) (products db')) = 1%nat
  ∧ length (filter (λ p, p_id p = id) (products db')) = 1%nat.
Proof.
  intros (value & _ & Hc & Hw)%createProduct_Created_inv; [|done].
  apply checks_Continue_inv in Hc as (_ & Hseen).
  apply writes_Continue_inv in Hw as ([= -> -> -> -> -> ->] & -> & Hsku & _).
  split_and!; [done|done|apply next_id_fresh| |..].
  - intros p Hp. by apply next_id_above, list_elem_of_fmap_2.
  - unfold provisioned. cbn [products]. rewrite filter_snoc_only; [done| |done].
    intros p Hp E. apply Hsku, list_elem_of_fmap. eauto.
  - unfold provisioned. cbn [products]. rewrite filter_snoc_only; [done| |done].
    intros p Hp E. apply (next_id_fresh (p_id <$> products db)).
    rewrite <- E. by apply list_elem_of_fmap_2.
Qed.

Lemma created_id_and_sku_are_new_witness :
  ("GAD-1"%string ∉ p_sku <$> products sample_store)
  ∧ length (filter (λ p, p_sku p = "GAD-1"%string) (products after_winner))
    = 1%nat.
Proof.
  destruct (created_id_and_sku_are_new no_faults 5 (mkUser 7 1) gadget
              sample_store sample_store after_winner 2 "Gadget" "GAD-1"
              (Q2Qc (1999 # 100)) 2 40)
    as (_ & H1 & _ & _ & H2 & _); [by_compute|].
  split; [exact H1|exact H2].
Defined.

(** ** What the error responses say *)

Lemma checks_error faults user value s e :
  checks faults user value s = inl e →
  faults q_Warehouse_findOne = Some e ∨ faults q_Product_findOne = Some e.
Proof.
  unfold checks, await, query, mbind, Tx_bind, tx_bind, tx_ret, tx_throw,
    Warehouse_findOne, Product_findOne, tx_gets.
  destruct (faults q_Warehouse_findOne); [intros [= ->]; by left|].
  destruct (head (filter _ (warehouses s))); [|done].
  destruct (faults q_Product_findOne); [intros [= ->]; by right|].
  by destruct (head _).
Qed.

Lemma checks_Rollback_inv faults user value s r s' :
  checks faults user value s = inr (RollbackAndReturn r, s') →
  (r = InvalidWarehouse
   ∧ ∀ w, w ∈ warehouses s → w_companyId w = u_companyId user →
          w_isActive w = Some true → w_id w ≠ v_warehouseId value)
  ∨ (r = SkuAlreadyExists (v_sku value)
     ∧ v_sku value ∈ p_sku <$> products s
     ∧ ∃ w, w ∈ warehouses s ∧ w_id w = v_warehouseId value
            ∧ w_companyId w = u_companyId user ∧ w_isActive w = Some true).
Proof.
  unfold checks, await, query, mbind, Tx_bind, tx_bind, tx_ret, tx_throw,
    Warehouse_findOne, Product_findOne, tx_gets.
  destruct (faults q_Warehouse_findOne); [done|].
  destruct (head (filter _ (warehouses s))) as [w|] eqn:Hw.
  - destruct (faults q_Product_findOne); [done|].
    destruct (head (filter _ (products s))) as [p|] eqn:Hp; [|done].
    intros [= <- _]. right. split_and!; [done| |].
    + apply head_Some_elem_of, list_elem_of_filter in Hp as [<- Hp].
      by apply list_elem_of_fmap_2.
    + apply head_Some_elem_of, list_elem_of_filter in Hw. exists w. tauto.
  - intros [= <- _]. left. split; [done|].
    intros w Hin ? ? ?. eapply (head_filter_None_inv _ _ w) in Hw; [|done].
    by apply Hw.
Qed.

(** The rejections of the writes: by the storage layer, by the unique
    index of [sku], or by a foreign key. *)
Lemma writes_error faults now user value db e :
  writes faults now user value db = inl e →
  (∃ q, faults q = Some e)
  ∨ (e = SequelizeUniqueConstraintError ∧ v_sku value ∈ p_sku <$> products db)
  ∨ (e = SequelizeForeignKeyConstraintError
     ∧ ¬ (u_companyId user ∈ c_id <$> companies db
          ∧ references pc_id (product_categories db) (v_categoryId value)
          ∧ references s_id (suppliers db) (v_supplierId value)
          ∧ v_warehouseId value ∈ w_id <$> warehouses db)).
Proof.
  unfold writes, await, query, mbind, Tx_bind, tx_bind, tx_ret, tx_throw.
  destruct (faults q_Product_create) eqn:F1; [intros [= ->]; eauto|].
  unfold Product_create.
  destruct (decide (v_sku value ∈ _)) as [|Hsku]; [intros [= <-]; auto|].
  destruct (decide (_ ∧ _)) as [(Hc & Hpc & Hsp)|];
    [|intros [= <-]; right; right; split; [done|tauto]].
  destruct (faults q_Inventory_findOne) eqn:F2; [intros [= ->]; eauto|].
  unfold Inventory_findOne, tx_gets. cbn [inventory p_id].
  destruct (head _) eqn:Hh; [done|].
  destruct (faults q_Inventory_create) eqn:F3; [intros [= ->]; eauto|].
  unfold Inventory_create. cbn [inventory products warehouses].
  destruct (decide (_ ∈ _)) as [Hpair|Hpair].
  { apply list_elem_of_fmap in Hpair as (i & [= E1 E2] & Hi).
    eapply (head_filter_None_inv _ _ i) in Hh; [|done]. by destruct Hh. }
  destruct (decide (_ ∧ _)) as [[_ Hw]|Hno].
  - destruct (faults q_InventoryMovement_create) eqn:F4; [intros [= ->]; eauto|].
    unfold InventoryMovement_create. cbn [inventory i_id].
    destruct (decide _) as [|Hno]; [done|].
    destruct Hno. rewrite fmap_app, elem_of_app. right. by left.
  - intros [= <-]. right. right. split; [done|]. intros (_ & _ & _ & Hw).
    apply Hno. split; [|done]. rewrite fmap_app, elem_of_app. right. by left.
Qed.

Lemma writes_Rollback_inv faults now user value db r tx :
  writes faults now user value db = inr (RollbackAndReturn r, tx) →
  ∃ i, i ∈ inventory db ∧ i_productId i = next_id (p_id <$> products db).
Proof.
  unfold writes, await, query, mbind, Tx_bind, tx_bind, tx_ret, tx_throw.
  destruct (faults q_Product_create); [done|].
  unfold Product_create.
  destruct (decide (v_sku value ∈ _)); [done|].
  destruct (decide (_ ∧ _)); [|done].
  destruct (faults q_Inventory_findOne); [done|].
  unfold Inventory_findOne, tx_gets. cbn [inventory p_id].
  destruct (head _) as [i|] eqn:Hh.
  - intros _. apply head_Some_elem_of, list_elem_of_filter in Hh as [[? _] ?].
    by exists i.
  - destruct (faults q_Inventory_create); [done|].
    unfold Inventory_create.
    repeat (case_match; try done).
Qed.

(** Property X20.  [Invalid warehouse] is answered only when no active
    warehouse of the caller's company has the id of the request, and
    [SKU already exists] only for the SKU of the request, when a product has
    it and the warehouse is valid. *)
Theorem lookup_rejections_are_justified faults now user body seen db r db' :
  createProduct_at faults now user body seen db = (r, db') →
  (r = InvalidWarehouse →
   ∀ w, w ∈ warehouses seen → w_companyId w = u_companyId user →
        w_isActive w = Some true → w_id w ≠ v_warehouseId (value_of body))
  ∧ (∀ sku, r = SkuAlreadyExists sku →
       sku = v_sku (value_of body) ∧ sku ∈ p_sku <$> products seen
       ∧ ∃ w, w ∈ warehouses seen ∧ w_id w = v_warehouseId (value_of body)
              ∧ w_companyId w = u_companyId user ∧ w_isActive w = Some true).
Proof.
  unfold createProduct_at.
  destruct (validate defaults body) as [details|value] eqn:Hv;
    [intros [= <- _]; by split|].
  apply validate_value_of in Hv as ->.
  destruct (checks _ _ _ _) as [e|[[r1|[]] s1]] eqn:Hc.
  - intros [= <- _]. split; intros; by destruct e.
  - intros [= <- _].
    apply checks_Rollback_inv in Hc as [[-> Hc]|(-> & Hc)].
    + by split.
    + split; [done|]. intros sku [= <-]. by split.
  - destruct (writes _ _ _ _ _) as [e|[[r2|r2] s2]] eqn:Hw.
    + intros [= <- _]. split; intros; by destruct e.
    + apply writes_Rollback in Hw as ->. intros [= <- _]. by split.
    + apply writes_Continue_inv in Hw as (-> & _).
      destruct (faults q_commit) as [e|]; intros [= <- _];
        split; intros; by try destruct e.
Qed.

Lemma lookup_rejections_are_justified_witness :
  Forall (λ w, w_companyId w = 1 → w_isActive w = Some true → w_id w ≠ 3)
    (warehouses sample_store).
Proof.
  destruct (lookup_rejections_are_justified no_faults 5 (mkUser 7 1) abroad
              sample_store sample_store InvalidWarehouse sample_store)
    as [H _]; [by_compute|].
  apply Forall_forall. exact (H eq_refl).
Defined.

(** Property X21.  On a database whose inventory records all reference existing
    products, no request is answered with
    [Inventory record already exists for this product in the warehouse]:
    the product the guard looks up has just been given a fresh id. *)
Theorem inventory_guard_never_fires faults now user body seen db r db' :
  inventory_references_products db →
  createProduct_at faults now user body seen db = (r, db') →
  r ≠ InventoryAlreadyExists.
Proof.
  intros Hfk. unfold createProduct_at.
  destruct (validate defaults body) as [details|value] eqn:Hv;
    [by intros [= <- _]|].
  destruct (checks _ _ _ _) as [e|[[r1|[]] s1]] eqn:Hc.
  - intros [= <- _]. by destruct e.
  - apply checks_Rollback in Hc as [-> | ->]; by intros [= <- _].
  - destruct (writes _ _ _ _ _) as [e|[[r2|r2] s2]] eqn:Hw.
    + intros [= <- _]. by destruct e.
    + apply writes_Rollback_inv in Hw as (i & Hi & E).
      unfold inventory_references_products in Hfk.
      rewrite Forall_forall in Hfk. apply Hfk in Hi. rewrite E in Hi.
      by apply next_id_fresh in Hi.
    + apply writes_Continue_inv in Hw as (-> & _).
      destruct (faults q_commit) as [e|]; intros [= <- _]; by try destruct e.
Qed.

Lemma inventory_guard_never_fires_witness :
  (createProduct no_faults 5 (mkUser 7 1) gadget sample_store).1
  ≠ InventoryAlreadyExists.
Proof.
  apply (inventory_guard_never_fires no_faults 5 (mkUser 7 1) gadget
           sample_store sample_store
           (createProduct no_faults 5 (mkUser 7 1) gadget sample_store).1
           after_winner); by_compute.
Defined.

(** Without the foreign key the guard can fire: [dangling_store] has an
    inventory record for the id the new product gets. *)
Example inventory_guard_fires_on_dangling_record :
  createProduct no_faults 5 (mkUser 7 1) gadget dangling_store
  = (InventoryAlreadyExists, dangling_store).
Proof. by_compute. Qed.

(** Property X22.  The responses of the [catch] block: 500 is answered only
    when the storage layer rejects a query with an error that is neither a
    unique nor a foreign-key violation; [Duplicate entry], unless the
    storage layer rejects a query so, only when the SKU was free at the
    lookup and taken at the insert; [Invalid reference], unless the storage
    layer rejects a query so, only when the company, the category, the
    supplier or the warehouse is missing at the insert. *)
Theorem caught_errors_are_justified faults now user body seen db r db' :
  createProduct_at faults now user body seen db = (r, db') →
  (r = InternalServerError → ∃ q, faults q = Some SequelizeDatabaseError)
  ∧ (r = DuplicateEntry →
       (∃ q, faults q = Some SequelizeUniqueConstraintError)
       ∨ (v_sku (value_of body) ∈ p_sku <$> products db
          ∧ v_sku (value_of body) ∉ p_sku <$> products seen))
  ∧ (r = InvalidReference →
       (∃ q, faults q = Some SequelizeForeignKeyConstraintError)
       ∨ ¬ (u_companyId user ∈ c_id <$> companies db
            ∧ references pc_id (product_categories db)
                (v_categoryId (value_of body))
            ∧ references s_id (suppliers db) (v_supplierId (value_of body))
            ∧ v_warehouseId (value_of body) ∈ w_id <$> warehouses db)).
Proof.
  unfold createProduct_at.
  destruct (validate defaults body) as [details|value] eqn:Hv;
    [intros [= <- _]; by split_and!|].
  apply validate_value_of in Hv as ->.
  destruct (checks _ _ _ _) as [e|[[r1|[]] s1]] eqn:Hc.
  - intros [= <- _].
    assert (∃ q, faults q = Some e) by (apply checks_error in Hc as [?|?]; eauto).
    destruct e; split_and!; intros; try done; auto.
  - apply checks_Rollback in Hc as [-> | ->]; intros [= <- _]; by split_and!.
  - apply checks_Continue_inv in Hc as (_ & Hseen).
    destruct (writes _ _ _ _ _) as [e|[[r2|r2] s2]] eqn:Hw.
    + intros [= <- _].
      apply writes_error in Hw as [Hq|[[-> Hsku]|[-> Hfk]]].
      * destruct e; split_and!; intros; try done; auto.
      * split_and!; intros; try done. by right.
      * split_and!; intros; try done. by right.
    + apply writes_Rollback in Hw as ->. intros [= <- _]. by split_and!.
    + apply writes_Continue_inv in Hw as (-> & _).
      destruct (faults q_commit) as [e|] eqn:Hq; intros [= <- _].
      * destruct e; split_and!; intros; try done; eauto.
      * by split_and!.
Qed.

Lemma caught_errors_are_justified_witness :
  ∃ q, commit_fails q = Some SequelizeDatabaseError.
Proof.
  destruct (caught_errors_are_justified commit_fails 5 (mkUser 7 1) gadget
              sample_store sample_store InternalServerError sample_store)
    as [H _]; [by_compute|]. exact (H eq_refl).
Defined.

(** ** A new product and the alerts *)

(** Property X23.  When the sales records reference existing products, a
    product that has just been created is in no low-stock alert, whatever
    its initial quantity and threshold: it has no sales yet. *)
Theorem created_product_raises_no_alert faults now user body seen db db'
    id name sku price warehouseId initialQuantity
    rt failures reader companyId page limit today alerts total pg a :
  sales_reference_products db →
  createProduct_at faults now user body seen db
  = (Created id name sku price warehouseId initialQuantity, db') →
  Alerts.getLowStockAlerts rt failures reader companyId page limit today db'
  = Alerts.Ok alerts total pg →
  a ∈ alerts → Alerts.a_product_id a ≠ id.
Proof.
  intros Hfk (value & _ & _ & Hw)%createProduct_Created_inv Hok Ha; [|done].
  apply writes_Continue_inv in Hw as ([= -> -> -> -> -> ->] & -> & _).
  destruct (AlertsInvariants.alert_origin _ _ _ _ _ _ _ _ _ _ _ _ Hok Ha)
    as (p & i & w & pc & sup & _ & (_ & _ & _ & _ & _ & Hsold) & ->).
  simpl. intros E. apply Hsold. unfold Alerts.recent_sales.
  match goal with |- ?l = [] => destruct l as [|sd k] eqn:Hf end; [done|].
  assert (Hsd : sd ∈ sd :: k) by by left.
  rewrite <- Hf in Hsd. apply list_elem_of_filter in Hsd as [[Hpid _] Hin].
  unfold sales_reference_products in Hfk. rewrite Forall_forall in Hfk.
  apply Hfk in Hin. rewrite Hpid, E in Hin. by apply next_id_fresh in Hin.
Qed.

Lemma created_product_raises_no_alert_witness :
  Alerts.a_product_id demo_alert ≠ 4.
Proof.
  apply (created_product_raises_no_alert no_faults 5 (mkUser 7 1) gadget
           demo_store demo_store demo_store_after 4 "Gadget" "GAD-1"
           (Q2Qc (1999 # 100)) 2 40 demo_runtime Alerts.no_failures
           (mkUser 7 1) 1 None None 100
           (Alerts.to_alert
              <$> Alerts.ordered demo_store_after 1 (Alerts.thirtyDaysAgo 100))
           3
           {| Alerts.current_page := JS.of_Z 1; Alerts.total_pages := JS.of_Z 1;
              Alerts.total_items := 3; Alerts.pg_limit := JS.of_Z 100 |}).
  - by_compute.
  - by_compute.
  - vm_compute. reflexivity.
  - by_compute.
Defined.

End ProductsInvariants.

